(** * plone.restapi.types.utils: FTI / zope.schema to JSON schema

    A shallow embedding of [src/plone/restapi/types/utils.py] and the
    properties of its fieldset traversal, property synthesis, widget
    parameter resolution and single-field lookup.

    Python objects are modelled by records carrying the attributes the
    module reads, exceptions by an error monad, insertion-ordered
    dictionaries ([dict], [OrderedDict]) by association lists with unique
    keys, and calls of deferred values by a log that is threaded through
    the computation. *)

From Stdlib Require Import List String Bool Arith ZArith Lia.
Import ListNotations.
Open Scope string_scope.

Set Implicit Arguments.

(** ** Python values, exceptions *)

Inductive exn : Type :=
| AttributeError
| KeyError (key : string)
| TypeError
| ComponentLookupError
| OtherError (what : string).

Inductive result (A : Type) : Type :=
| Ok (a : A)
| Raise (e : exn).

Arguments Ok {A} a.
Arguments Raise {A} e.

(** The values that travel through widget parameters and schema
    properties.  A callable is called without arguments and has an
    identity.  [PCallable] is a callable that returns the same value
    whenever it is called.  [PFunction] is any other callable: what a
    call gives, a value (which may again be any value, a callable
    included) or an exception (the [TypeError] of a function that needs
    an argument, say), may depend on the calls made before. *)
#[warnings="-register-all"]
Inductive PyVal : Type :=
| PNone
| PBool (b : bool)
| PInt (n : Z)
| PStr (s : string)
| PCallable (ident : string) (returns : PyVal)
| PFunction (ident : string) (body : list string -> result PyVal).

Definition callable (v : PyVal) : bool :=
  match v with
  | PCallable _ _ => true
  | PFunction _ _ => true
  | _ => false
  end.

Definition bind {A B : Type} (m : result A) (k : A -> result B) : result B :=
  match m with
  | Ok a => k a
  | Raise e => Raise e
  end.

Notation "x <- m ;; k" := (bind m (fun x => k))
  (at level 61, m at next level, right associativity).

(** ** Insertion-ordered dictionaries *)

Module Dict.
Section Dict.
Context {V : Type}.

Definition t := list (string * V).

Definition keys (d : t) : list string := map fst d.

Fixpoint get (k : string) (d : t) : option V :=
  match d with
  | [] => None
  | (k', v) :: d' => if String.eqb k' k then Some v else get k d'
  end.

(** [d[k] = v]: an existing key keeps its place, a new one goes last. *)
Fixpoint set (k : string) (v : V) (d : t) : t :=
  match d with
  | [] => [(k, v)]
  | (k', v') :: d' =>
      if String.eqb k' k then (k', v) :: d' else (k', v') :: set k v d'
  end.

(** [d[k]], raising [KeyError] when [k] is missing. *)
Definition getitem (k : string) (d : t) : result V :=
  match get k d with
  | Some v => Ok v
  | None => Raise (KeyError k)
  end.
End Dict.
Arguments t V : clear implicits.
End Dict.

(** ** Data model *)

(** A zope.schema field: what [getName()], [required] and the attributes
    read with [getattr(field, ..., None)] give.  [ftype] stands for the
    interfaces the field provides, on which adapter lookup dispatches. *)
Record ZField : Type := {
  getName : string;
  ftype : string;
  required : bool;
  default : option PyVal;
  defaultFactory : option PyVal;
  interface : option PyVal;
  max_length : option PyVal;
  min_length : option PyVal;
  missing_value : option PyVal;
  order : option PyVal;
  readonly : option PyVal
}.

(** A z3c.form field: wraps a schema field, has its own (possibly
    prefixed) form name and a mode. *)
Record FormField : Type := {
  field : ZField;
  __name__ : string;
  mode : option string
}.

(** A fieldset dict [{"id": ..., "title": ..., "fields": [...]}]. *)
Record Fieldset : Type := {
  id : string;
  title : string;
  fields : list FormField
}.

(** The same dict after [get_fieldset_infos]: names instead of fields. *)
Record FieldsetInfo : Type := {
  info_id : string;
  info_title : string;
  info_fields : list string
}.

(** One JSON schema property (a dict) and the properties mapping. *)
Definition Property := Dict.t PyVal.
Definition Properties := Dict.t Property.

(** An [IJsonSchemaProvider] adapter instance: the field it adapts, its
    settable [prefix] and the schema its class computes. *)
Record Adapter : Type := {
  adapter_field : ZField;
  prefix : string;
  provider : ZField -> string -> Property
}.

Definition get_schema (a : Adapter) : Property :=
  provider a (adapter_field a) (prefix a).

Definition set_prefix (a : Adapter) (p : string) : Adapter :=
  {| adapter_field := adapter_field a; prefix := p; provider := provider a |}.

(** Truth value of a string ([if prefix:], [if field.mode:]). *)
Definition str_truthy (s : string) : bool := negb (String.eqb s "").

Definition in_list (s : string) (l : list string) : bool :=
  existsb (String.eqb s) l.

(** [fieldname == fname], where [fname] may be [None]. *)
Definition name_is (fieldname : string) (fname : option string) : bool :=
  match fname with
  | Some n => String.eqb fieldname n
  | None => false
  end.

(** [".".join([prefix, fieldname])] *)
Definition dotted (p fieldname : string) : string := p ++ "." ++ fieldname.

Definition iter_fields (fieldsets : list Fieldset) : list FormField :=
  flat_map fields fieldsets.

Definition get_fieldset_infos (fieldsets : list Fieldset) : list FieldsetInfo :=
  map (fun fieldset =>
         {| info_id := id fieldset;
            info_title := title fieldset;
            info_fields := map (fun f => getName (field f)) (fields fieldset) |})
      fieldsets.

(** ** Property synthesis *)

Section Synthesis.

(** The component registry for [IJsonSchemaProvider] multi-adapters of
    [(field, context, request)], for the context and request of the
    call: the provider class registered for a field type under a name
    (the unnamed registration is the one under the empty name). *)
Variable registry : string -> string -> option (ZField -> string -> Property).

Definition queryMultiAdapter (f : ZField) (name : string) : option Adapter :=
  match registry (ftype f) name with
  | Some cls => Some {| adapter_field := f; prefix := ""; provider := cls |}
  | None => None
  end.

Definition getMultiAdapter (f : ZField) : result Adapter :=
  match queryMultiAdapter f "" with
  | Some a => Ok a
  | None => Raise ComponentLookupError
  end.

(** [queryMultiAdapter(..., name=field.__name__) or getMultiAdapter(...)];
    adapter instances are plain objects, hence true. *)
Definition lookup_adapter (f : FormField) : result Adapter :=
  match queryMultiAdapter (field f) (__name__ f) with
  | Some a => Ok a
  | None => getMultiAdapter (field f)
  end.

(** The loop of [get_jsonschema_properties] over [iter_fields(fieldsets)],
    with the accumulated [properties]. *)
Fixpoint properties_loop (pfx : string) (excluded_fields : list string)
    (fname : option string) (fs : list FormField) (properties : Properties)
    : result Properties :=
  match fs with
  | [] => Ok properties
  | f :: rest =>
      let fieldname := getName (field f) in
      if name_is fieldname fname then
        adapter <- lookup_adapter f ;;
        let adapter := set_prefix adapter pfx in
        let fieldname :=
          if str_truthy pfx then dotted pfx fieldname else fieldname in
        Ok (Dict.set fieldname (get_schema adapter) [])
      else if negb (in_list fieldname excluded_fields) then
        adapter <- lookup_adapter f ;;
        let adapter := set_prefix adapter pfx in
        let fieldname :=
          if str_truthy pfx then dotted pfx fieldname else fieldname in
        properties_loop pfx excluded_fields fname rest
          (Dict.set fieldname (get_schema adapter) properties)
      else
        properties_loop pfx excluded_fields fname rest properties
  end.

Definition get_jsonschema_properties (fieldsets : list Fieldset)
    (pfx : string) (excluded_fields : option (list string))
    (fname : option string) : result Properties :=
  let excluded_fields :=
    match excluded_fields with
    | None => []
    | Some l => l
    end in
  properties_loop pfx excluded_fields fname (iter_fields fieldsets) [].

End Synthesis.

(** [d[k1][k2] = v]: the inner dict is updated in place; [KeyError] when
    [k1] is missing. *)
Definition setitem2 {V : Type} (k1 k2 : string) (v : V)
    (d : Dict.t (Dict.t V)) : result (Dict.t (Dict.t V)) :=
  inner <- Dict.getitem k1 d ;;
  Ok (Dict.set k1 (Dict.set k2 v inner) d).

(** ** Forms, schemas and type information *)

Inductive Widget : Type :=
| ParameterizedWidget (params : Dict.t PyVal)
| OtherWidget (dotted_name : string).

(** A schema interface: its name, the field names iteration over it
    yields, and the widgets [mergedTaggedValueDict(schema, WIDGETS_KEY)]
    finds for it. *)
Record Schema : Type := {
  schema_name : string;
  names : list string;
  tagged_widgets : Dict.t Widget
}.

Definition mergedTaggedValueDict (schema : Schema) : Dict.t Widget :=
  tagged_widgets schema.

(** A z3c.form group. *)
Record Group : Type := {
  group_name : string;
  label : string;
  group_fields : list FormField
}.

(** The form after [updateFieldsFromSchemata()]; either attribute may be
    missing, which [getattr] with a default covers. *)
Record Form : Type := {
  form_fields : option (list FormField);
  groups : option (list Group)
}.

Record FTI : Type := {
  fti_id : string;
  Title : string;
  lookupSchema : result Schema;
  view_methods : option (list string)
}.

(** The document [get_jsonschema_for_fti] returns. *)
Record Document : Type := {
  doc_type : string;
  doc_title : string;
  doc_properties : Properties;
  doc_required : list string;
  doc_fieldsets : list FieldsetInfo;
  doc_layouts : list string
}.

(** What [get_info_for_field] returns: a fieldset info, the properties of
    one field, or a plain dict. *)
Inductive Info : Type :=
| InfoFieldset (fs : FieldsetInfo)
| InfoProperties (p : Properties)
| InfoDict (d : Dict.t PyVal).

Definition getattr_or_none (a : option PyVal) : PyVal :=
  match a with
  | Some v => v
  | None => PNone
  end.

Section Facade.

Variable registry : string -> string -> option (ZField -> string -> Property).

(** The collaborators: translation (message id, default, domain), the
    form plone.autoform builds for a schema and additional schemata, the
    behavior schemata of a portal type, the types tool and [str()]. *)
Variable translate : string -> option string -> option string -> string.
Variable create_form : Schema -> list Schema -> Form.
Variable getAdditionalSchemata : string -> list Schema.
Variable portal_types : string -> option FTI.
Variable py_str : PyVal -> string.

(** The conversion of a single value to a JSON compatible one. *)
Variable json_compatible : PyVal -> PyVal.

(** Modelled from the spec: [IJsonCompatible] is defined in
    plone.restapi.serializer.converters, outside this module; of the
    document the spec only asks that it be JSON-serializable.  The
    conversion of a mapping goes entry by entry and keeps keys and
    order; the conversion of a single value is the parameter above. *)
Definition IJsonCompatible (properties : Properties) : Properties :=
  map (fun kv => (fst kv, map (fun e => (fst e, json_compatible (snd e))) (snd kv)))
      properties.

Definition get_form_fieldsets (form : Form) : list Fieldset :=
  let fields_values :=
    match form_fields form with
    | Some l => l
    | None => []
    end in
  let fieldsets :=
    match fields_values with
    | [] => []
    | _ :: _ =>
        [ {| id := "default";
             title := translate "label_schema_default" (Some "Default")
                        (Some "plone");
             fields := fields_values |} ]
    end in
  fieldsets ++
  map (fun group =>
         {| id := group_name group;
            title := translate (label group) None None;
            fields := group_fields group |})
      (match groups form with
       | Some l => l
       | None => []
       end).

Definition get_fieldsets (schema : Schema) (additional_schemata : list Schema)
    : list Fieldset :=
  get_form_fieldsets (create_form schema additional_schemata).

(** [required.append(field.field.getName())] for every required field. *)
Fixpoint required_loop (fs : list FormField) (req : list string) : list string :=
  match fs with
  | [] => req
  | f :: rest =>
      if required (field f)
      then required_loop rest (req ++ [getName (field f)])%list
      else required_loop rest req
  end.

(** [properties[field.field.getName()]["mode"] = field.mode] for every
    field with a mode. *)
Fixpoint modes_loop (fs : list FormField) (properties : Properties)
    : result Properties :=
  match fs with
  | [] => Ok properties
  | f :: rest =>
      match mode f with
      | Some m =>
          if str_truthy m then
            properties <- setitem2 (getName (field f)) "mode" (PStr m) properties ;;
            modes_loop rest properties
          else modes_loop rest properties
      | None => modes_loop rest properties
      end
  end.

(** The [try ... except AttributeError ... else ...] both entry points
    start with. *)
Definition lookup_fieldsets (fti : FTI) : result (list Fieldset) :=
  match lookupSchema fti with
  | Ok schema =>
      let additional_schemata := getAdditionalSchemata (fti_id fti) in
      Ok (get_fieldsets schema additional_schemata)
  | Raise AttributeError => Ok []
  | Raise e => Raise e
  end.

Definition get_jsonschema_for_fti (fti : FTI)
    (excluded_fields : option (list string)) : result Document :=
  let excluded_fields :=
    match excluded_fields with
    | None => []
    | Some l => l
    end in
  fieldsets <- lookup_fieldsets fti ;;
  properties <-
    get_jsonschema_properties registry fieldsets "" (Some excluded_fields) None ;;
  let required := required_loop (iter_fields fieldsets) [] in
  properties <- modes_loop (iter_fields fieldsets) properties ;;
  Ok {| doc_type := "object";
        doc_title := translate (Title fti) None None;
        doc_properties := IJsonCompatible properties;
        doc_required := required;
        doc_fieldsets := get_fieldset_infos fieldsets;
        doc_layouts :=
          match view_methods fti with
          | Some l => l
          | None => []
          end |}.

Definition get_jsonschema_for_portal_type (portal_type : string)
    (excluded_fields : option (list string)) : result Document :=
  match portal_types portal_type with
  | Some fti => get_jsonschema_for_fti fti excluded_fields
  | None => Raise (KeyError portal_type)
  end.

(** The nine assignments [properties[field_name][...] = getattr(...)]. *)
Definition decorate (field_name : string) (f : ZField)
    (properties : Properties) : result Properties :=
  properties <- setitem2 field_name "default"
                  (getattr_or_none (default f)) properties ;;
  properties <- setitem2 field_name "defaultFactory"
                  (getattr_or_none (defaultFactory f)) properties ;;
  properties <- setitem2 field_name "interface"
                  (PStr (py_str (getattr_or_none (interface f)))) properties ;;
  properties <- setitem2 field_name "max_length"
                  (getattr_or_none (max_length f)) properties ;;
  properties <- setitem2 field_name "min_length"
                  (getattr_or_none (min_length f)) properties ;;
  properties <- setitem2 field_name "missing_value"
                  (getattr_or_none (missing_value f)) properties ;;
  properties <- setitem2 field_name "order"
                  (getattr_or_none (order f)) properties ;;
  properties <- setitem2 field_name "readonly"
                  (getattr_or_none (readonly f)) properties ;;
  setitem2 field_name "required" (PBool (required f)) properties.

Definition not_found : Info :=
  InfoDict [("message", PStr "No entry could be found for the supplied name.")].

(** The inner loop over [fieldset['fields']]: [Some] is the [return]
    inside it, [None] means the loop ran to its end. *)
Fixpoint info_fields_loop (fieldset : Fieldset) (field_name : string)
    (fs : list FormField) : option (result Info) :=
  match fs with
  | [] => None
  | f :: rest =>
      if String.eqb (getName (field f)) field_name then
        Some (properties <-
                get_jsonschema_properties registry [fieldset] "" None
                  (Some field_name) ;;
              properties <- decorate field_name (field f) properties ;;
              Ok (InfoProperties (IJsonCompatible properties)))
      else info_fields_loop fieldset field_name rest
  end.

Fixpoint info_loop (field_name : string) (fieldsets : list Fieldset)
    : result Info :=
  match fieldsets with
  | [] => Ok not_found
  | fieldset :: rest =>
      if String.eqb (id fieldset) field_name then
        match get_fieldset_infos [fieldset] with
        | properties :: _ => Ok (InfoFieldset properties)
        | [] => Raise (OtherError "IndexError")
        end
      else
        match info_fields_loop fieldset field_name (fields fieldset) with
        | Some r => r
        | None => info_loop field_name rest
        end
  end.

Definition get_info_for_field (portal_type field_name : string) : result Info :=
  match portal_types portal_type with
  | None => Raise (KeyError portal_type)
  | Some fti =>
      fieldsets <- lookup_fieldsets fti ;;
      info_loop field_name fieldsets
  end.

End Facade.

(** ** Widget parameters *)

(** The effect of the module on the outside is the calls it makes of
    deferred parameter values: the state threaded through
    [get_widget_params] is the log of the callables called so far.  An
    exception of a callable leaves [get_widget_params] as it is. *)
Definition CallLog := list string.

Definition call (v : PyVal) (log : CallLog) : result (PyVal * CallLog) :=
  match v with
  | PCallable ident returns => Ok (returns, (log ++ [ident])%list)
  | PFunction ident body =>
      returns <- body log ;;
      Ok (returns, (log ++ [ident])%list)
  | _ => Raise TypeError
  end.

Definition Params := Dict.t (Dict.t PyVal).

(** [for k, v in widget.params.items(): ...] *)
Fixpoint items_loop (field_name : string) (items : list (string * PyVal))
    (params : Params) (log : CallLog) : result (Params * CallLog) :=
  match items with
  | [] => Ok (params, log)
  | (k, v) :: rest =>
      vl <- (if callable v then call v log else Ok (v, log)) ;;
      params <- setitem2 field_name k (fst vl) params ;;
      items_loop field_name rest params (snd vl)
  end.

(** [for field_name in schema: ...] *)
Fixpoint names_loop (tagged_values : Dict.t Widget) (field_names : list string)
    (params : Params) (log : CallLog) : result (Params * CallLog) :=
  match field_names with
  | [] => Ok (params, log)
  | field_name :: rest =>
      match Dict.get field_name tagged_values with
      | Some (ParameterizedWidget ((_ :: _) as widget_params)) =>
          pl <- items_loop field_name widget_params
                  (Dict.set field_name [] params) log ;;
          names_loop tagged_values rest (fst pl) (snd pl)
      | _ => names_loop tagged_values rest params log
      end
  end.

(** [for schema in schemas: ...] *)
Fixpoint schemas_loop (schemas : list (option Schema))
    (params : Params) (log : CallLog) : result (Params * CallLog) :=
  match schemas with
  | [] => Ok (params, log)
  | None :: rest => schemas_loop rest params log
  | Some schema :: rest =>
      let tagged_values := mergedTaggedValueDict schema in
      pl <- names_loop tagged_values (names schema) params log ;;
      schemas_loop rest (fst pl) (snd pl)
  end.

Definition get_widget_params (schemas : list (option Schema)) (log : CallLog)
    : result (Params * CallLog) :=
  schemas_loop schemas [] log.

(** ** Vocabulary, source and query source URLs *)

(** A context or the portal: what [absolute_url()] gives, or the exception
    it raises (an object without the method raises [AttributeError]). *)
Record Traversable : Type := {
  absolute_url : result string
}.

Section Urls.

(** The portal [getSite()] returns. *)
Variable getSite : Traversable.

Definition get_vocab_like_url (endpoint locator : string)
    (context : Traversable) : result string :=
  context_url <-
    match absolute_url context with
    | Raise AttributeError => absolute_url getSite
    | r => r
    end ;;
  Ok (String.concat "/" [context_url; endpoint; locator]).

Definition get_vocabulary_url (vocab_name : string) (context : Traversable)
    : result string :=
  get_vocab_like_url "@vocabularies" vocab_name context.

Definition get_querysource_url (f : ZField) (context : Traversable)
    : result string :=
  get_vocab_like_url "@querysources" (getName f) context.

Definition get_source_url (f : ZField) (context : Traversable)
    : result string :=
  get_vocab_like_url "@sources" (getName f) context.

End Urls.

(** ** The contact form service (services/contact/post.py) *)

(** The values of a parsed JSON body and their truth value. *)
#[warnings="-register-all"]
Inductive Json : Type :=
| JNull
| JBool (b : bool)
| JNumber (n : Z)
| JString (s : string)
| JArray (l : list Json)
| JObject (d : list (string * Json)).

Definition json_truthy (j : Json) : bool :=
  match j with
  | JNull => false
  | JBool b => b
  | JNumber n => negb (Z.eqb n 0)
  | JString s => str_truthy s
  | JArray l => match l with [] => false | _ :: _ => true end
  | JObject d => match d with [] => false | _ :: _ => true end
  end.

(** [data.get(key, default)] *)
Definition dict_get_default {V : Type} (k : string) (default : V)
    (d : Dict.t V) : V :=
  match Dict.get k d with
  | Some v => v
  | None => default
  end.

(** What the service acts on: the status of the response and the
    messages handed to [send_message] of the contact-info view. *)
Record Site : Type := {
  status : option Z;
  outbox : list (Dict.t Json)
}.

(** The views the service looks up: the overview control panel, if it is
    registered, with what its [mailhost_warning()] answers, and whether
    the contact-info view is registered. *)
Record Views : Type := {
  overview_controlpanel : option bool;
  contact_info : bool
}.

Definition setStatus (code : Z) (site : Site) : Site :=
  {| status := Some code; outbox := outbox site |}.

Definition send_message (data : Dict.t Json) (site : Site) : Site :=
  {| status := status site; outbox := (outbox site ++ [data])%list |}.

Definition bad_request (message : string) : Json :=
  JObject [("error", JObject [("type", JString "BadRequest");
                              ("message", JString message)])].

(** [ContactPost.reply]: the value returned ([None] for the bare
    [return]) or the exception raised, and the site afterwards.
    [json_body] is the outcome of parsing the request body. *)
Definition reply (views : Views) (json_body : result (Dict.t Json))
    (site : Site) : result (option Json) * Site :=
  match json_body with
  | Raise e => (Raise e, site)
  | Ok data =>
      let sender_from_address := dict_get_default "from" JNull data in
      let message := dict_get_default "message" JNull data in
      let sender_fullname := dict_get_default "name" (JString "") data in
      let subject := dict_get_default "subject" (JString "") data in
      if (negb (json_truthy sender_from_address)
          || negb (json_truthy message))%bool then
        (Ok (Some (bad_request "Missing from or message parameters")),
         setStatus 400 site)
      else
        match overview_controlpanel views with
        | None => (Raise ComponentLookupError, site)
        | Some mailhost_warning =>
            if mailhost_warning then
              (Ok (Some (bad_request "MailHost is not configured.")),
               setStatus 400 site)
            else if contact_info views then
              let site :=
                send_message
                  [("message", message);
                   ("subject", subject);
                   ("sender_from_address", sender_from_address);
                   ("sender_fullname", sender_fullname)] site in
              (Ok None, setStatus 204 site)
            else (Raise ComponentLookupError, site)
        end
  end.

(** ** The news portlet renderer (serializer/portlets/news.py) *)

(** A catalog brain of a news item: what its summary serializer returns
    or raises, the two renderings of its creation date, whether it has an
    icon, and its URL. *)
Record Brain : Type := {
  summary : result (Dict.t PyVal);
  created_localized : string;
  created_strftime : string;
  getIcon : bool;
  getURL : string
}.

(** The renderer: the published news items, whether the "plone" view is
    registered, [thumb_scale] ([None] when the attribute is false,
    otherwise the text its call formats to) and the link to all news. *)
Record Renderer : Type := {
  published_news_items : list Brain;
  plone_view : bool;
  thumb_scale : option string;
  all_news_link : string
}.

(** The loop of [NewsPortletRenderer.render]. *)
Fixpoint render_loop (self : Renderer) (brains : list Brain)
    (items : list (Dict.t PyVal)) : result (list (Dict.t PyVal)) :=
  match brains with
  | [] => Ok items
  | brain :: rest =>
      itemList <- summary brain ;;
      _ <- (if plone_view self then Ok tt else Raise ComponentLookupError) ;;
      let itemList := Dict.set "date" (PStr (created_localized brain)) itemList in
      let itemList := Dict.set "date" (PStr (created_strftime brain)) itemList in
      let itemList := Dict.set "thumb" (PStr "") itemList in
      let itemList :=
        match thumb_scale self with
        | Some scale =>
            if getIcon brain then
              Dict.set "thumb"
                (PStr (getURL brain ++ "/@@images/image/" ++ scale)) itemList
            else itemList
        | None => itemList
        end in
      render_loop self rest (items ++ [itemList])%list
  end.

Definition render (self : Renderer) : result (list (Dict.t PyVal) * string) :=
  items <- render_loop self (published_news_items self) [] ;;
  Ok (items, all_news_link self).

(** * Notions used in the statements *)

(** The key a field is stored under: [fieldname], or
    ["{prefix}.{fieldname}"] for a non-empty prefix. *)
Definition output_key (pfx fieldname : string) : string :=
  if str_truthy pfx then dotted pfx fieldname else fieldname.

(** Under corresponding keys [props_p] and [props] hold what one adapter
    of one field of [fs] computes, given the prefix [pfx] and given the
    empty prefix. *)
Definition same_origin
    (registry : string -> string -> option (ZField -> string -> Property))
    (pfx : string) (fs : list FormField) (props_p props : Properties) : Prop :=
  forall k v,
    Dict.get k props = Some v ->
    exists f a,
      In f fs /\ getName (field f) = k /\
      lookup_adapter registry f = Ok a /\
      v = provider a (field f) "" /\
      Dict.get (output_key pfx k) props_p = Some (provider a (field f) pfx).

(** The elements of [l] not in [seen], each at its first occurrence. *)
Fixpoint new_keys (seen l : list string) : list string :=
  match l with
  | [] => []
  | x :: r =>
      if in_list x seen then new_keys seen r
      else x :: new_keys (seen ++ [x]) r
  end.

Definition first_seen (l : list string) : list string := new_keys [] l.

Definition excluded_list (excluded_fields : option (list string)) : list string :=
  match excluded_fields with
  | None => []
  | Some l => l
  end.

(** The fields the loop stores a property for when no [fname] stops it. *)
Definition emitted (excluded_fields : list string) (fs : list FormField)
    : list FormField :=
  filter (fun f => negb (in_list (getName (field f)) excluded_fields)) fs.

(** What the loop stores for one field. *)
Definition stored (pfx : string) (f : FormField) (a : Adapter) : string * Property :=
  (output_key pfx (getName (field f)), get_schema (set_prefix a pfx)).

(** The property of a field after the nine assignments of
    [get_info_for_field]. *)
Definition decorated (py_str : PyVal -> string) (f : ZField) (p : Property)
    : Property :=
  Dict.set "required" (PBool (required f))
    (Dict.set "readonly" (getattr_or_none (readonly f))
      (Dict.set "order" (getattr_or_none (order f))
        (Dict.set "missing_value" (getattr_or_none (missing_value f))
          (Dict.set "min_length" (getattr_or_none (min_length f))
            (Dict.set "max_length" (getattr_or_none (max_length f))
              (Dict.set "interface"
                 (PStr (py_str (getattr_or_none (interface f))))
                (Dict.set "defaultFactory"
                   (getattr_or_none (defaultFactory f))
                  (Dict.set "default" (getattr_or_none (default f)) p)))))))).

(** No fieldset of [fieldsets] has the id [N], none has a field named [N]. *)
Definition unmatched (N : string) (fieldsets : list Fieldset) : Prop :=
  forall g, In g fieldsets ->
    id g <> N /\ forall h, In h (fields g) -> getName (field h) <> N.

(** What [get_widget_params] visits: the parameters of the widget of a
    field name (none unless the widget is parameterized), the triples
    (field name, parameter, declared value) of a schema in visiting order,
    those of a sequence of schemas, and the callables among them. *)
Definition widget_params (tagged_values : Dict.t Widget) (field_name : string)
    : Dict.t PyVal :=
  match Dict.get field_name tagged_values with
  | Some (ParameterizedWidget params) => params
  | _ => []
  end.



Definition callee (v : PyVal) : list string :=
  match v with
  | PCallable ident _ => [ident]
  | PFunction ident _ => [ident]
  | _ => []
  end.


(** What a callable that always returns the same value is replaced by;
    any other value stands for itself. *)
Definition result_of (v : PyVal) : PyVal :=
  match v with
  | PCallable _ returns => returns
  | _ => v
  end.


(** [v'] is a value the declared value [v] is replaced by: [v] itself
    when it is not callable, otherwise what a call of it returns. *)
Definition returned (v v' : PyVal) : Prop :=
  match v with
  | PFunction _ body => exists log, body log = Ok v'
  | _ => v' = result_of v
  end.

(** [vals] are the parameters [items], in their order and under their
    names, each value replaced as [returned] says. *)
Definition resolves_to (items vals : Dict.t PyVal) : Prop :=
  Forall2 (fun kv kv' => fst kv' = fst kv /\ returned (snd kv) (snd kv'))
          items vals.



(** [if callable(v): v = v()] for one value, for the items of a widget
    in turn, and the assignments [params[field_name][k] = v] that follow
    from there. *)
Definition resolve (v : PyVal) (log : CallLog) : result (PyVal * CallLog) :=
  if callable v then call v log else Ok (v, log).

Fixpoint resolve_items (items : Dict.t PyVal) (log : CallLog)
    : result (Dict.t PyVal * CallLog) :=
  match items with
  | [] => Ok ([], log)
  | (k, v) :: rest =>
      vl <- resolve v log ;;
      rl <- resolve_items rest (snd vl) ;;
      Ok ((k, fst vl) :: fst rl, snd rl)
  end.

Definition store_all (vals inner : Dict.t PyVal) : Dict.t PyVal :=
  fold_left (fun d kv => Dict.set (fst kv) (snd kv) d) vals inner.

(** One round of the loop over the field names of a schema. *)
Definition name_step (tagged_values : Dict.t Widget) (field_name : string)
    (params : Params) (log : CallLog) : result (Params * CallLog) :=
  match widget_params tagged_values field_name with
  | [] => Ok (params, log)
  | (_ :: _) as items =>
      rl <- resolve_items items log ;;
      Ok (Dict.set field_name (store_all (fst rl) []) params, snd rl)
  end.




(** The names of a list of fields, and the names the fieldset summaries
    list, fieldset after fieldset. *)
Definition field_names (fs : list FormField) : list string :=
  map (fun f => getName (field f)) fs.

Definition listed_names (infos : list FieldsetInfo) : list string :=
  flat_map info_fields infos.

(** The mode of the last field of [fs] that is named [n] and has a mode. *)
Fixpoint last_mode (n : string) (fs : list FormField) : option string :=
  match fs with
  | [] => None
  | f :: rest =>
      match last_mode n rest with
      | Some m => Some m
      | None =>
          if String.eqb (getName (field f)) n then
            match mode f with
            | Some m => if str_truthy m then Some m else None
            | None => None
            end
          else None
      end
  end.

(** The summary of one fieldset. *)
Definition summary_of (fieldset : Fieldset) : FieldsetInfo :=
  {| info_id := id fieldset;
     info_title := title fieldset;
     info_fields := field_names (fields fieldset) |}.

(** A contact form body has a true "from" and a true "message"; the dict
    the service hands to [send_message] for it. *)
Definition complete (data : Dict.t Json) : bool :=
  (json_truthy (dict_get_default "from" JNull data)
   && json_truthy (dict_get_default "message" JNull data))%bool.

Definition contact_message (data : Dict.t Json) : Dict.t Json :=
  [("message", dict_get_default "message" JNull data);
   ("subject", dict_get_default "subject" (JString "") data);
   ("sender_from_address", dict_get_default "from" JNull data);
   ("sender_fullname", dict_get_default "name" (JString "") data)].

(** The thumbnail address the news renderer stores for a brain. *)
Definition thumb_of (self : Renderer) (brain : Brain) : string :=
  match thumb_scale self with
  | Some scale =>
      if getIcon brain then getURL brain ++ "/@@images/image/" ++ scale
      else ""
  | None => ""
  end.

(** The keys [get_info_for_field] adds to the property of a field. *)
Definition descriptor_keys : list string :=
  ["default"; "defaultFactory"; "interface"; "max_length"; "min_length";
   "missing_value"; "order"; "readonly"; "required"].

(** Every entry of [params] is non-empty and comes from a schema of
    [seen] that lists the field and gives it a parameterized widget with
    parameters. *)
Definition declared_by (seen : list (option Schema)) (params : Params) : Prop :=
  forall n inner,
    Dict.get n params = Some inner ->
    inner <> [] /\
    exists s kv items,
      In (Some s) seen /\ In n (names s) /\
      Dict.get n (mergedTaggedValueDict s)
        = Some (ParameterizedWidget (kv :: items)).

(** What the renderer makes of the summary [s] of a brain. *)
Definition rendered (self : Renderer) (brain : Brain) (s item : Dict.t PyVal)
    : Prop :=
  summary brain = Ok s /\
  Dict.get "date" item = Some (PStr (created_strftime brain)) /\
  Dict.get "thumb" item = Some (PStr (thumb_of self brain)) /\
  forall k, k <> "date" -> k <> "thumb" -> Dict.get k item = Dict.get k s.

(** ** A sample site

    A small registry, a few fields and two portal types, on which the
    statements below are exercised. *)

Module Sample.

Definition text_provider (f : ZField) (pfx : string) : Property :=
  [("type", PStr "string"); ("title", PStr (getName f))].

Definition related_provider (f : ZField) (pfx : string) : Property :=
  [("type", PStr "array"); ("title", PStr (getName f))].

(** An unnamed provider for text lines, a named one for related items. *)
Definition registry (ftype name : string)
    : option (ZField -> string -> Property) :=
  if (String.eqb ftype "TextLine" && String.eqb name "")%bool
  then Some text_provider
  else if (String.eqb ftype "RelationList"
           && String.eqb name "IRelatedItems.relatedItems")%bool
  then Some related_provider
  else None.

Definition zfield (name type : string) (req : bool) : ZField :=
  {| getName := name; ftype := type; required := req;
     default := None; defaultFactory := None; interface := None;
     max_length := None; min_length := None; missing_value := None;
     order := None; readonly := None |}.

Definition f_title : FormField :=
  {| field := zfield "title" "TextLine" true; __name__ := "title";
     mode := None |}.

Definition f_summary : FormField :=
  {| field := zfield "summary" "TextLine" false; __name__ := "summary";
     mode := None |}.

Definition f_secret : FormField :=
  {| field := zfield "secret" "TextLine" false; __name__ := "secret";
     mode := Some "hidden" |}.

(** A behavior field with the short name of [f_title]. *)
Definition f_dc_title : FormField :=
  {| field := zfield "title" "TextLine" true;
     __name__ := "IDublinCore.title"; mode := None |}.

Definition f_related : FormField :=
  {| field := zfield "relatedItems" "RelationList" false;
     __name__ := "IRelatedItems.relatedItems"; mode := None |}.

(** A field no provider is registered for. *)
Definition f_blob : FormField :=
  {| field := zfield "file" "NamedBlobFile" false; __name__ := "file";
     mode := None |}.

Definition translate (msgid : string) (default domain : option string) : string :=
  match default with
  | Some d => d
  | None => msgid
  end.

Definition schema (name : string) : Schema :=
  {| schema_name := name; names := []; tagged_widgets := [] |}.

(** The form the form engine is taken to build for each sample schema. *)
Definition create_form (s : Schema) (additional : list Schema) : Form :=
  if String.eqb (schema_name s) "IDocument" then
    {| form_fields := Some [f_title; f_summary];
       groups := Some [ {| group_name := "categorization";
                           label := "Categorization";
                           group_fields := [f_related] |} ] |}
  else if String.eqb (schema_name s) "IEvent" then
    {| form_fields := Some [f_title; f_secret];
       groups := Some [ {| group_name := "dublin";
                           label := "Dublin Core";
                           group_fields := [f_dc_title] |} ] |}
  else if String.eqb (schema_name s) "IFile" then
    {| form_fields := Some [f_title; f_blob]; groups := None |}
  else if String.eqb (schema_name s) "ISummary" then
    {| form_fields := Some [f_title; f_summary];
       groups := Some [ {| group_name := "summary";
                           label := "Summary";
                           group_fields := [f_related] |} ] |}
  else {| form_fields := None; groups := None |}.

Definition getAdditionalSchemata (portal_type : string) : list Schema := [].

Definition fti (name schema_iface : string) : FTI :=
  {| fti_id := name; Title := name;
     lookupSchema := Ok (schema schema_iface);
     view_methods := Some ["view"] |}.

Definition fti_site : FTI :=
  {| fti_id := "Plone Site"; Title := "Plone Site";
     lookupSchema := Raise AttributeError;
     view_methods := Some ["listing_view"; "summary_view"] |}.

Definition portal_types (portal_type : string) : option FTI :=
  if String.eqb portal_type "Document" then Some (fti "Document" "IDocument")
  else if String.eqb portal_type "Event" then Some (fti "Event" "IEvent")
  else if String.eqb portal_type "File" then Some (fti "File" "IFile")
  else if String.eqb portal_type "Summary" then Some (fti "Summary" "ISummary")
  else if String.eqb portal_type "Plone Site" then Some fti_site
  else None.

Definition py_str (v : PyVal) : string :=
  match v with
  | PNone => "None"
  | PStr s => s
  | PBool true => "True"
  | PBool false => "False"
  | _ => "<object>"
  end.

Definition json_compatible (v : PyVal) : PyVal := v.

Definition fieldsets_of (schema_iface : string) : list Fieldset :=
  get_fieldsets translate create_form (schema schema_iface) [].


(** A schema whose widget parameters are a literal and a callable that
    returns a literal. *)
Definition plain_schema : Schema :=
  {| schema_name := "IPlain";
     names := ["start"; "end"];
     tagged_widgets :=
       [("start",
         ParameterizedWidget
           [("first_day", PInt 1);
            ("default_timezone", PCallable "default_timezone" (PStr "UTC"))]);
        ("end", OtherWidget "plone.app.z3cform.widget.DatetimeFieldWidget")] |}.


(** The portal, a folder in it, and an object without [absolute_url]. *)
Definition portal : Traversable :=
  {| absolute_url := Ok "http://localhost/plone" |}.

Definition folder : Traversable :=
  {| absolute_url := Ok "http://localhost/plone/folder" |}.

Definition detached : Traversable :=
  {| absolute_url := Raise AttributeError |}.

(** Bodies posted to the contact service. *)
Definition full_body : Dict.t Json :=
  [("from", JString "jane@example.org"); ("message", JString "Hello");
   ("name", JString "Jane")].

Definition body_without_sender : Dict.t Json :=
  [("message", JString "Hello"); ("from", JString "")].

Definition configured : Views :=
  {| overview_controlpanel := Some false; contact_info := true |}.

Definition nothing_registered : Views :=
  {| overview_controlpanel := None; contact_info := false |}.

Definition fresh_site : Site := {| status := None; outbox := [] |}.

(** Two news items and a renderer for them. *)
Definition news1 : Brain :=
  {| summary := Ok [("@id", PStr "http://localhost/plone/news/one");
                    ("date", PStr "stale"); ("title", PStr "One")];
     created_localized := "Oct 05, 2020";
     created_strftime := "2020-10-05 09:30:00";
     getIcon := true;
     getURL := "http://localhost/plone/news/one" |}.

Definition news2 : Brain :=
  {| summary := Ok [("@id", PStr "http://localhost/plone/news/two");
                    ("title", PStr "Two")];
     created_localized := "Oct 06, 2020";
     created_strftime := "2020-10-06 10:00:00";
     getIcon := false;
     getURL := "http://localhost/plone/news/two" |}.

Definition news_renderer : Renderer :=
  {| published_news_items := [news1; news2];
     plone_view := true;
     thumb_scale := Some "thumb";
     all_news_link := "http://localhost/plone/news" |}.

(** A schema whose parameter counts the calls made so far, and one
    whose parameter is a function that cannot be called without an
    argument. *)
Definition counting_schema : Schema :=
  {| schema_name := "ICounting";
     names := ["serial"];
     tagged_widgets :=
       [("serial",
         ParameterizedWidget
           [("next",
             PFunction "next_serial"
               (fun log => Ok (PInt (Z.of_nat (List.length log)))))])] |}.


Definition needy_schema : Schema :=
  {| schema_name := "INeedy";
     names := ["subjects"];
     tagged_widgets :=
       [("subjects",
         ParameterizedWidget
           [("vocabulary",
             PFunction "vocabulary_for" (fun _ => Raise TypeError))])] |}.

End Sample.

(** * Properties *)

Unset Implicit Arguments.

(** ** Dictionaries *)

Module DictFacts.
Section DictFacts.
Context {V : Type}.
Implicit Types (d : Dict.t V) (k : string) (v : V).

Lemma get_set_same k v d : Dict.get k (Dict.set k v d) = Some v.
Proof.
  induction d as [|[k' v'] d IH]; simpl.
  - now rewrite String.eqb_refl.
  - destruct (String.eqb k' k) eqn:E; simpl; rewrite E; auto.
Qed.

Lemma get_set_other k k' v d :
  k' <> k -> Dict.get k (Dict.set k' v d) = Dict.get k d.
Proof.
  intros Hne. induction d as [|[k0 v0] d IH]; simpl.
  - destruct (String.eqb k' k) eqn:E; auto.
    apply String.eqb_eq in E. contradiction.
  - destruct (String.eqb k0 k') eqn:E; simpl.
    + apply String.eqb_eq in E. subst k0.
      destruct (String.eqb k' k) eqn:E'; auto.
      apply String.eqb_eq in E'. contradiction.
    + now rewrite IH.
Qed.

Lemma get_None_keys k d : Dict.get k d = None <-> ~ In k (Dict.keys d).
Proof.
  induction d as [|[k' v'] d IH]; simpl.
  - tauto.
  - destruct (String.eqb k' k) eqn:E.
    + apply String.eqb_eq in E. split; [discriminate | tauto].
    + apply String.eqb_neq in E. rewrite IH. tauto.
Qed.

Lemma get_Some_keys k v d : Dict.get k d = Some v -> In k (Dict.keys d).
Proof.
  intros H. destruct (in_dec string_dec k (Dict.keys d)) as [Hin|Hn]; auto.
  apply get_None_keys in Hn. congruence.
Qed.

(** Keys after an assignment: unchanged for a known key, one more at
    the end for a new one. *)
Lemma keys_set k v d :
  Dict.keys (Dict.set k v d) =
  if in_list k (Dict.keys d) then Dict.keys d else (Dict.keys d ++ [k])%list.
Proof.
  unfold in_list. induction d as [|[k' v'] d IH]; simpl; auto.
  rewrite (String.eqb_sym k k').
  destruct (String.eqb k' k) eqn:E; simpl; auto.
  rewrite IH. now destruct (existsb (String.eqb k) (Dict.keys d)).
Qed.

Lemma keys_set_NoDup k v d :
  NoDup (Dict.keys d) -> NoDup (Dict.keys (Dict.set k v d)).
Proof.
  intros Hnd. rewrite keys_set. unfold in_list.
  destruct (existsb (String.eqb k) (Dict.keys d)) eqn:E; auto.
  apply NoDup_app; auto.
  - constructor; [tauto | constructor].
  - intros x Hx [<-|[]].
    assert (existsb (String.eqb k) (Dict.keys d) = true); [|congruence].
    apply existsb_exists. exists k. split; auto. apply String.eqb_refl.
Qed.
End DictFacts.
End DictFacts.

Lemma in_list_true s l : in_list s l = true <-> In s l.
Proof.
  unfold in_list. rewrite existsb_exists. split.
  - intros [x [Hin E]]. apply String.eqb_eq in E. now subst.
  - intros H. exists s. split; auto. apply String.eqb_refl.
Qed.

Lemma in_list_false s l : in_list s l = false <-> ~ In s l.
Proof.
  rewrite <- in_list_true. destruct (in_list s l); split; congruence.
Qed.

(** ** Output keys and first-seen order *)

Lemma append_inj_l (p a b : string) : (p ++ a = p ++ b)%string -> a = b.
Proof.
  induction p as [|c p IH]; simpl; auto.
  intros H. injection H as H. auto.
Qed.

Lemma output_key_inj pfx a b : output_key pfx a = output_key pfx b -> a = b.
Proof.
  unfold output_key, dotted. destruct (str_truthy pfx); auto.
  intros H. apply append_inj_l in H. now apply (append_inj_l ".") in H.
Qed.

Lemma output_key_empty a : output_key "" a = a.
Proof. reflexivity. Qed.

Lemma new_keys_In seen l x :
  In x (new_keys seen l) <-> In x l /\ ~ In x seen.
Proof.
  revert seen. induction l as [|y r IH]; intros seen; simpl.
  - tauto.
  - destruct (in_list y seen) eqn:E.
    + apply in_list_true in E. rewrite IH. split.
      * tauto.
      * intros [[->|H] Hn]; tauto.
    + apply in_list_false in E. simpl. rewrite IH, in_app_iff. simpl.
      destruct (string_dec y x) as [->|Hne]; tauto.
Qed.

Lemma new_keys_NoDup seen l : NoDup (new_keys seen l).
Proof.
  revert seen. induction l as [|y r IH]; intros seen; simpl.
  - constructor.
  - destruct (in_list y seen); auto.
    constructor; auto.
    rewrite new_keys_In, in_app_iff. simpl. tauto.
Qed.

Lemma new_keys_distinct seen l :
  NoDup l -> (forall x, In x l -> ~ In x seen) -> new_keys seen l = l.
Proof.
  revert seen. induction l as [|y r IH]; intros seen Hnd Hdis; simpl; auto.
  inversion Hnd as [|? ? Hy Hr]; subst.
  assert (E : in_list y seen = false)
    by (apply in_list_false, Hdis; now left).
  rewrite E. f_equal. apply IH; auto.
  intros x Hx. rewrite in_app_iff. simpl.
  intros [Hs|[<-|[]]]; [apply (Hdis x); auto; now right | contradiction].
Qed.

Lemma first_seen_In l x : In x (first_seen l) <-> In x l.
Proof. unfold first_seen. rewrite new_keys_In. simpl. tauto. Qed.

Lemma first_seen_NoDup l : NoDup (first_seen l).
Proof. apply new_keys_NoDup. Qed.

Lemma first_seen_distinct l : NoDup l -> first_seen l = l.
Proof. intros H. apply new_keys_distinct; auto. Qed.

(** ** The loop of the property synthesizer *)

Section SynthesisFacts.

Variable registry : string -> string -> option (ZField -> string -> Property).
Variables (pfx : string) (excl : list string).

Local Abbreviation loop := (properties_loop registry pfx excl).
Local Abbreviation stored := (stored pfx).

Lemma loop_match fname f rest acc :
  name_is (getName (field f)) fname = true ->
  loop fname (f :: rest) acc =
  (a <- lookup_adapter registry f ;; Ok [stored f a]).
Proof. intros H. unfold output_key. simpl. now rewrite H. Qed.

Lemma loop_skip fname f rest acc :
  name_is (getName (field f)) fname = false ->
  in_list (getName (field f)) excl = true ->
  loop fname (f :: rest) acc = loop fname rest acc.
Proof. intros H1 H2. simpl. now rewrite H1, H2. Qed.

Lemma loop_store fname f rest acc :
  name_is (getName (field f)) fname = false ->
  in_list (getName (field f)) excl = false ->
  loop fname (f :: rest) acc =
  (a <- lookup_adapter registry f ;;
   loop fname rest (Dict.set (fst (stored f a)) (snd (stored f a)) acc)).
Proof.
  intros H1 H2. unfold output_key. simpl. now rewrite H1, H2.
Qed.



(** With an [fname] that names none of the fields the loop does what it
    does without [fname]. *)
Lemma loop_no_match fname fs acc :
  (forall f, In f fs -> name_is (getName (field f)) fname = false) ->
  loop fname fs acc = loop None fs acc.
Proof.
  revert acc. induction fs as [|f rest IH]; intros acc Hno; auto.
  assert (E1 : name_is (getName (field f)) fname = false)
    by (apply Hno; now left).
  assert (Hrest : forall g, In g rest ->
                    name_is (getName (field g)) fname = false)
    by (intros g Hg; apply Hno; now right).
  destruct (in_list (getName (field f)) excl) eqn:E2.
  - rewrite !loop_skip by auto. auto.
  - rewrite !loop_store by auto.
    destruct (lookup_adapter registry f); simpl; auto.
Qed.

(** The loop over [pre ++ rest] when nothing in [pre] is named [fname]. *)
Lemma loop_app fname pre rest acc :
  (forall f, In f pre -> name_is (getName (field f)) fname = false) ->
  loop fname (pre ++ rest) acc =
  (acc' <- loop None pre acc ;; loop fname rest acc').
Proof.
  revert acc. induction pre as [|f pre IH]; intros acc Hno; auto.
  assert (E1 : name_is (getName (field f)) fname = false)
    by (apply Hno; now left).
  assert (Hpre : forall g, In g pre ->
                   name_is (getName (field g)) fname = false)
    by (intros g Hg; apply Hno; now right).
  change ((f :: pre) ++ rest)%list with (f :: (pre ++ rest))%list.
  destruct (in_list (getName (field f)) excl) eqn:E2.
  - rewrite !loop_skip by auto. auto.
  - rewrite !loop_store by auto.
    destruct (lookup_adapter registry f); simpl; auto.
Qed.

(** Keys of the result when no [fname] stops the loop: the keys already
    there, then the new keys of the stored fields, each where it is
    first seen. *)
Lemma loop_keys fs acc props :
  loop None fs acc = Ok props ->
  Dict.keys props =
  (Dict.keys acc ++
   new_keys (Dict.keys acc)
     (map (fun f => output_key pfx (getName (field f))) (emitted excl fs)))%list.
Proof.
  revert acc. induction fs as [|f rest IH]; intros acc.
  - simpl. intros [= <-]. now rewrite app_nil_r.
  - unfold emitted. cbn [filter]. fold (emitted excl rest).
    destruct (in_list (getName (field f)) excl) eqn:E2; cbn [negb map].
    + rewrite loop_skip by auto. apply IH.
    + rewrite loop_store by auto.
      destruct (lookup_adapter registry f) as [a|]; cbn [bind]; [|discriminate].
      intros H. apply IH in H. rewrite H.
      change (fst (stored f a)) with (output_key pfx (getName (field f))).
      rewrite DictFacts.keys_set. cbn [new_keys].
      destruct (in_list (output_key pfx (getName (field f))) (Dict.keys acc));
        auto.
      now rewrite <- app_assoc.
Qed.

(** The loop succeeds when every field it has to store has an adapter. *)
Lemma loop_succeeds fs acc :
  (forall f, In f (emitted excl fs) ->
     exists a, lookup_adapter registry f = Ok a) ->
  exists props, loop None fs acc = Ok props.
Proof.
  revert acc. induction fs as [|f rest IH]; intros acc Had.
  - now exists acc.
  - unfold emitted in Had. cbn [filter] in Had. fold (emitted excl rest) in Had.
    destruct (in_list (getName (field f)) excl) eqn:E2; cbn [negb] in Had.
    + rewrite loop_skip by auto. auto.
    + rewrite loop_store by auto.
      destruct (Had f) as [a Ha]; [now left|]. rewrite Ha. cbn [bind].
      apply IH. intros g Hg. apply Had. now right.
Qed.

End SynthesisFacts.

(** ** Single-field lookup and exclusion in the synthesizer *)

Section SingleField.

Variable registry : string -> string -> option (ZField -> string -> Property).
Variables (pfx : string) (excl : list string).

Local Abbreviation loop := (properties_loop registry pfx excl).

Lemma name_is_Some n F : name_is n (Some F) = true <-> n = F.
Proof. simpl. apply String.eqb_eq. Qed.

Lemma name_is_false n fname : name_is n fname = false <-> fname <> Some n.
Proof.
  destruct fname as [F|]; simpl.
  - rewrite String.eqb_neq. split; intros H; congruence.
  - split; [discriminate | reflexivity].
Qed.

(** A field named in [excluded_fields] and different from [fname] gets
    no entry. *)
Lemma loop_absent fname N fs acc props :
  In N excl -> fname <> Some N ->
  Dict.get (output_key pfx N) acc = None ->
  loop fname fs acc = Ok props ->
  Dict.get (output_key pfx N) props = None.
Proof.
  intros Hin Hfn. revert acc.
  induction fs as [|f rest IH]; intros acc Hacc.
  - now intros [= <-].
  - destruct (name_is (getName (field f)) fname) eqn:E1.
    + rewrite loop_match by auto.
      destruct (lookup_adapter registry f) as [a|]; simpl; [|discriminate].
      intros [= <-]. simpl.
      destruct (String.eqb _ _) eqn:E; auto.
      apply String.eqb_eq, output_key_inj in E.
      destruct fname as [F|]; [|discriminate].
      apply name_is_Some in E1. congruence.
    + destruct (in_list (getName (field f)) excl) eqn:E2.
      * rewrite loop_skip by auto. now apply IH.
      * rewrite loop_store by auto.
        destruct (lookup_adapter registry f) as [a|]; simpl; [|discriminate].
        apply IH. rewrite DictFacts.get_set_other; auto.
        intros E. apply output_key_inj in E. subst N.
        apply in_list_false in E2. contradiction.
Qed.

(** The first field named [F] decides the result: what precedes it is
    processed and dropped, what follows it is not looked at. *)
Lemma loop_found F pre f post acc a :
  (forall g, In g pre -> getName (field g) <> F) ->
  getName (field f) = F ->
  (forall g, In g (emitted excl pre) ->
     exists b, lookup_adapter registry g = Ok b) ->
  lookup_adapter registry f = Ok a ->
  loop (Some F) (pre ++ f :: post) acc = Ok [stored pfx f a].
Proof.
  intros Hpre Hf Hads Ha.
  rewrite loop_app.
  - destruct (loop_succeeds registry pfx excl pre acc Hads) as [acc' ->].
    cbn [bind]. rewrite loop_match by now apply name_is_Some.
    now rewrite Ha.
  - intros g Hg. apply name_is_false. intros [= E]. now apply (Hpre g).
Qed.

(** The first element of a list that satisfies a test, when there is one. *)
Lemma first_match_split {A : Type} (P : A -> bool) (l : list A) :
  (exists x, In x l /\ P x = true) ->
  exists pre x post,
    l = (pre ++ x :: post)%list /\
    (forall y, In y pre -> P y = false) /\ P x = true.
Proof.
  induction l as [|y l IH]; intros [x [Hin Hx]]; [destruct Hin|].
  destruct (P y) eqn:E.
  - exists [], y, l. repeat split; auto. intros z [].
  - destruct IH as [pre [x' [post [-> [Hpre Hx']]]]].
    + destruct Hin as [->|Hin]; [congruence|]. now exists x.
    + exists (y :: pre), x', post. repeat split; auto.
      intros z [<-|Hz]; auto.
Qed.

(** When the loop returns and some field is named [fname], the result is
    the one entry of the first such field. *)
Lemma loop_first_match fname pre f post acc props :
  (forall g, In g pre -> name_is (getName (field g)) fname = false) ->
  name_is (getName (field f)) fname = true ->
  loop fname (pre ++ f :: post) acc = Ok props ->
  exists a, lookup_adapter registry f = Ok a /\ props = [stored pfx f a].
Proof.
  intros Hpre Hf. rewrite loop_app by auto.
  destruct (properties_loop registry pfx excl None pre acc) as [acc'|];
    cbn [bind]; [|discriminate].
  rewrite loop_match by auto.
  destruct (lookup_adapter registry f) as [a|]; cbn [bind]; [|discriminate].
  intros [= <-]. now exists a.
Qed.


End SingleField.

(** With an [fname] that names no field, the synthesizer returns what it
    returns without [fname]. *)
Lemma fname_missing_as_without registry fieldsets pfx excluded_fields F :
  (forall f, In f (iter_fields fieldsets) -> getName (field f) <> F) ->
  get_jsonschema_properties registry fieldsets pfx excluded_fields (Some F) =
  get_jsonschema_properties registry fieldsets pfx excluded_fields None.
Proof.
  intros H. unfold get_jsonschema_properties. apply loop_no_match.
  intros f Hf. apply name_is_false. intros [= E]. now apply (H f).
Qed.

(** With an [fname] that names a field, the synthesizer returns the one
    entry of the first such field, whatever follows it. *)
Lemma fname_found_single registry fieldsets pfx excluded_fields F pre f post a :
  iter_fields fieldsets = (pre ++ f :: post)%list ->
  (forall g, In g pre -> getName (field g) <> F) ->
  getName (field f) = F ->
  (forall g, In g (emitted (excluded_list excluded_fields) pre) ->
     exists b, lookup_adapter registry g = Ok b) ->
  lookup_adapter registry f = Ok a ->
  get_jsonschema_properties registry fieldsets pfx excluded_fields (Some F)
  = Ok [stored pfx f a].
Proof.
  intros Hsplit Hpre Hf Hads Ha. unfold get_jsonschema_properties.
  rewrite Hsplit. now apply loop_found.
Qed.

(** When the synthesizer returns and a field is named [F], the mapping has
    exactly the key of [F]. *)
Lemma fname_found_one_key registry fieldsets pfx excluded_fields F props :
  (exists f, In f (iter_fields fieldsets) /\ getName (field f) = F) ->
  get_jsonschema_properties registry fieldsets pfx excluded_fields (Some F)
    = Ok props ->
  Dict.keys props = [output_key pfx F].
Proof.
  intros [f [Hin Hf]] H.
  destruct (first_match_split
              (fun g => name_is (getName (field g)) (Some F))
              (iter_fields fieldsets))
    as [pre [g [post [Hsplit [Hpre Hg]]]]].
  { exists f. split; auto. now apply name_is_Some. }
  unfold get_jsonschema_properties in H. rewrite Hsplit in H.
  apply loop_first_match in H; auto.
  destruct H as [a [_ ->]].
  apply name_is_Some in Hg. simpl. now rewrite Hg.
Qed.

(** C1: asked for a field name that no fieldset has, the synthesizer
    returns the properties of all the fields of the sample document type,
    not an empty mapping. *)
Theorem unknown_fname_returns_all_properties :
  (forall f, In f (iter_fields (Sample.fieldsets_of "IDocument")) ->
     getName (field f) <> "nonexistent") /\
  get_jsonschema_properties Sample.registry (Sample.fieldsets_of "IDocument")
    "" None (Some "nonexistent")
  = Ok [("title", Sample.text_provider (field Sample.f_title) "");
        ("summary", Sample.text_provider (field Sample.f_summary) "");
        ("relatedItems", Sample.related_provider (field Sample.f_related) "")]
  /\
  get_jsonschema_properties Sample.registry (Sample.fieldsets_of "IDocument")
    "" None (Some "nonexistent")
  <> Ok [].
Proof.
  split; [|split].
  - simpl. intros f [<-|[<-|[<-|[]]]]; discriminate.
  - reflexivity.
  - discriminate.
Qed.

(** C2, as stated, fails: the field named by [fname] is returned even
    when [excluded_fields] lists it. *)
Lemma excluded_field_returned_when_named :
  In "title" ["title"] /\
  get_jsonschema_properties Sample.registry (Sample.fieldsets_of "IDocument")
    "" (Some ["title"]) (Some "title")
  = Ok [("title", Sample.text_provider (field Sample.f_title) "")] /\
  In "title"
     (Dict.keys [("title", Sample.text_provider (field Sample.f_title) "")]).
Proof. repeat split; simpl; auto. Qed.

(** C2, amended: a field named in [excluded_fields] and not asked for by
    [fname] gets no property: the mapping has no entry under the key of
    that field, which is its name when the prefix is empty. *)
Theorem excluded_fields_not_emitted
    registry fieldsets pfx excluded fname N props :
  In N excluded ->
  fname <> Some N ->
  get_jsonschema_properties registry fieldsets pfx (Some excluded) fname
    = Ok props ->
  Dict.get (output_key pfx N) props = None /\
  (pfx = "" -> ~ In N (Dict.keys props)).
Proof.
  intros Hin Hfn H.
  assert (Hget : Dict.get (output_key pfx N) props = None).
  { unfold get_jsonschema_properties in H.
    apply (loop_absent registry pfx excluded fname N
             (iter_fields fieldsets) [] props Hin Hfn eq_refl H). }
  split; auto.
  intros ->. now apply DictFacts.get_None_keys.
Qed.

Lemma excluded_fields_not_emitted_witness :
  get_jsonschema_properties Sample.registry (Sample.fieldsets_of "IDocument")
    "" (Some ["title"]) (Some "summary")
  = Ok [("summary", Sample.text_provider (field Sample.f_summary) "")]
  /\ Dict.get (output_key "" "title")
       [("summary", Sample.text_provider (field Sample.f_summary) "")] = None.
Proof.
  split; [reflexivity|].
  refine (proj1 (excluded_fields_not_emitted Sample.registry
                   (Sample.fieldsets_of "IDocument") "" ["title"]
                   (Some "summary") "title" _ _ _ _));
    [now left | discriminate | reflexivity].
Defined.

(** ** Order of the fieldsets and of the properties *)

Lemma iter_fields_cons fieldset rest :
  iter_fields (fieldset :: rest) = (fields fieldset ++ iter_fields rest)%list.
Proof. reflexivity. Qed.

Lemma iter_fields_app fs1 fs2 :
  iter_fields (fs1 ++ fs2) = (iter_fields fs1 ++ iter_fields fs2)%list.
Proof. unfold iter_fields. apply flat_map_app. Qed.

(** The fields of [get_form_fieldsets], in traversal order: those of the
    form itself, then those of every group, group after group. *)
Lemma iter_fields_form translate form :
  iter_fields (get_form_fieldsets translate form) =
  (match form_fields form with Some l => l | None => [] end ++
   flat_map group_fields
     (match groups form with Some l => l | None => [] end))%list.
Proof.
  unfold get_form_fieldsets. rewrite iter_fields_app.
  f_equal.
  - destruct (form_fields form) as [[|f l]|]; simpl; auto.
    now rewrite app_nil_r.
  - unfold iter_fields. rewrite flat_map_concat_map, map_map.
    now rewrite <- flat_map_concat_map.
Qed.

(** C6: the fieldsets of a form are the "default" one, present when the
    form has fields of its own, followed by one fieldset per group in the
    order of the groups; and the properties mapping of these fieldsets
    lists its keys in first-seen order of the traversal, fieldset after
    fieldset and field after field within each (exactly the traversal
    when the stored keys are distinct).  With an [fname] that names a
    field the mapping has the single key of that field. *)
Theorem properties_in_fieldset_order
    registry translate (form : Form) pfx excluded_fields fname props :
  let fieldsets := get_form_fieldsets translate form in
  let own := match form_fields form with Some l => l | None => [] end in
  let grps := match groups form with Some l => l | None => [] end in
  let stored_keys :=
    map (fun f => output_key pfx (getName (field f)))
        (emitted (excluded_list excluded_fields)
           (own ++ flat_map group_fields grps)) in
  get_jsonschema_properties registry fieldsets pfx excluded_fields fname
    = Ok props ->
  map id fieldsets =
    (match own with [] => [] | _ :: _ => ["default"] end
     ++ map group_name grps)%list /\
  map fields fieldsets =
    (match own with [] => [] | _ :: _ => [own] end
     ++ map group_fields grps)%list /\
  iter_fields fieldsets = (own ++ flat_map group_fields grps)%list /\
  ((forall f, In f (iter_fields fieldsets) ->
      name_is (getName (field f)) fname = false) ->
   Dict.keys props = first_seen stored_keys /\
   (NoDup stored_keys -> Dict.keys props = stored_keys)) /\
  ((exists f, In f (iter_fields fieldsets) /\
      name_is (getName (field f)) fname = true) ->
   exists F, fname = Some F /\ Dict.keys props = [output_key pfx F]).
Proof.
  intros fieldsets own grps stored_keys H.
  assert (Hiter : iter_fields fieldsets = (own ++ flat_map group_fields grps)%list)
    by apply iter_fields_form.
  split; [|split; [|split; [exact Hiter|split]]].
  - unfold fieldsets, get_form_fieldsets. fold own grps.
    rewrite !map_app, !map_map. simpl. f_equal. destruct own; reflexivity.
  - unfold fieldsets, get_form_fieldsets. fold own grps.
    rewrite !map_app, !map_map. simpl. f_equal. destruct own; reflexivity.
  - intros Hno.
    assert (Hk : Dict.keys props = first_seen stored_keys).
    { unfold get_jsonschema_properties in H.
      rewrite loop_no_match in H by exact Hno.
      apply loop_keys in H. simpl in H. rewrite H.
      unfold stored_keys, first_seen. now rewrite Hiter. }
    split; [exact Hk|].
    intros Hnd. rewrite Hk. now apply first_seen_distinct.
  - intros Hex.
    apply (first_match_split
             (fun f => name_is (getName (field f)) fname)) in Hex.
    destruct Hex as [pre [f [post [Hsplit [Hpre Hf]]]]].
    unfold get_jsonschema_properties in H. rewrite Hsplit in H.
    apply loop_first_match in H; auto.
    destruct H as [a [_ ->]].
    destruct fname as [F|]; [|discriminate].
    exists F. split; auto.
    apply name_is_Some in Hf. simpl. now rewrite Hf.
Qed.

Lemma properties_in_fieldset_order_witness :
  get_jsonschema_properties Sample.registry
    (get_form_fieldsets Sample.translate
       (Sample.create_form (Sample.schema "IDocument") []))
    "" None None
  = Ok [("title", Sample.text_provider (field Sample.f_title) "");
        ("summary", Sample.text_provider (field Sample.f_summary) "");
        ("relatedItems", Sample.related_provider (field Sample.f_related) "")]
  /\ map id
       (get_form_fieldsets Sample.translate
          (Sample.create_form (Sample.schema "IDocument") []))
     = ["default"; "categorization"].
Proof.
  split; [reflexivity|].
  refine (proj1 (properties_in_fieldset_order Sample.registry Sample.translate
                   (Sample.create_form (Sample.schema "IDocument") [])
                   "" None None _ _)).
  reflexivity.
Defined.

(** ** Adapter lookup *)






(** ** The document of a type *)

Lemma required_loop_spec fs req :
  required_loop fs req =
  (req ++ map (fun f => getName (field f))
            (filter (fun f => required (field f)) fs))%list.
Proof.
  revert req. induction fs as [|f rest IH]; intros req; simpl.
  - now rewrite app_nil_r.
  - destruct (required (field f)); simpl; rewrite IH; auto.
    now rewrite <- app_assoc.
Qed.

(** C4: for a type whose schema lookup raises [AttributeError] the
    document is built all the same: no properties, no required names, no
    fieldsets, and the title and the layouts of the type. *)
Theorem schemaless_type_has_empty_document
    registry translate create_form getAdditionalSchemata json_compatible
    fti excluded_fields :
  lookupSchema fti = Raise AttributeError ->
  get_jsonschema_for_fti registry translate create_form getAdditionalSchemata
    json_compatible fti excluded_fields
  = Ok {| doc_type := "object";
          doc_title := translate (Title fti) None None;
          doc_properties := [];
          doc_required := [];
          doc_fieldsets := [];
          doc_layouts := match view_methods fti with
                         | Some l => l
                         | None => []
                         end |}.
Proof.
  intros H. unfold get_jsonschema_for_fti, lookup_fieldsets.
  rewrite H. reflexivity.
Qed.

Lemma schemaless_type_has_empty_document_witness :
  lookupSchema Sample.fti_site = Raise AttributeError /\
  get_jsonschema_for_fti Sample.registry Sample.translate Sample.create_form
    Sample.getAdditionalSchemata Sample.json_compatible
    Sample.fti_site (Some ["title"])
  = Ok {| doc_type := "object";
          doc_title := "Plone Site";
          doc_properties := [];
          doc_required := [];
          doc_fieldsets := [];
          doc_layouts := ["listing_view"; "summary_view"] |}.
Proof.
  split; [reflexivity|].
  apply (schemaless_type_has_empty_document Sample.registry Sample.translate
           Sample.create_form Sample.getAdditionalSchemata
           Sample.json_compatible Sample.fti_site (Some ["title"])).
  reflexivity.
Defined.

(** C5, as stated, fails: two required fields with the same short name,
    one of the form and one of a behavior group, are both listed. *)
Lemma required_lists_a_name_twice :
  exists doc,
    get_jsonschema_for_fti Sample.registry Sample.translate Sample.create_form
      Sample.getAdditionalSchemata Sample.json_compatible
      (Sample.fti "Event" "IEvent") None = Ok doc /\
    doc_required doc = ["title"; "title"] /\
    ~ NoDup (doc_required doc).
Proof.
  eexists. split; [reflexivity|]. split; [reflexivity|].
  simpl. intros H. inversion H as [|x l Hnotin Hnd]; subst.
  apply Hnotin. now left.
Qed.

(** C5, amended: the [required] list of the document holds, in traversal
    order, the unprefixed name ([getName()], not the form name) of every
    field whose [required] flag is set, one entry per such field; it
    names exactly the required fields, and has no duplicates when the
    required fields have distinct names. *)
Theorem required_lists_required_fields
    registry translate create_form getAdditionalSchemata json_compatible
    fti excluded_fields fieldsets doc :
  lookup_fieldsets translate create_form getAdditionalSchemata fti
    = Ok fieldsets ->
  get_jsonschema_for_fti registry translate create_form getAdditionalSchemata
    json_compatible fti excluded_fields = Ok doc ->
  let required_names :=
    map (fun f => getName (field f))
        (filter (fun f => required (field f)) (iter_fields fieldsets)) in
  doc_required doc = required_names /\
  (forall n, In n (doc_required doc) <->
     exists f, In f (iter_fields fieldsets) /\ required (field f) = true /\
               getName (field f) = n) /\
  (NoDup required_names -> NoDup (doc_required doc)).
Proof.
  intros Hfs Hdoc required_names.
  assert (Heq : doc_required doc = required_names).
  { unfold get_jsonschema_for_fti in Hdoc. rewrite Hfs in Hdoc.
    cbn [bind] in Hdoc.
    destruct (get_jsonschema_properties registry fieldsets "" _ None)
      as [props|]; cbn [bind] in Hdoc; [|discriminate].
    destruct (modes_loop (iter_fields fieldsets) props) as [props'|];
      cbn [bind] in Hdoc; [|discriminate].
    injection Hdoc as <-. cbn [doc_required].
    now rewrite required_loop_spec. }
  split; [exact Heq|]. split.
  - intros n. rewrite Heq. unfold required_names. rewrite in_map_iff.
    split.
    + intros [f [Hn Hf]]. apply filter_In in Hf. exists f. tauto.
    + intros [f [Hin [Hreq Hn]]]. exists f. rewrite filter_In. tauto.
  - now rewrite Heq.
Qed.

Lemma required_lists_required_fields_witness :
  exists doc,
    get_jsonschema_for_fti Sample.registry Sample.translate Sample.create_form
      Sample.getAdditionalSchemata Sample.json_compatible
      (Sample.fti "Document" "IDocument") None = Ok doc /\
    doc_required doc = ["title"].
Proof.
  eexists. split; [reflexivity|].
  refine (proj1 (required_lists_required_fields Sample.registry
                   Sample.translate Sample.create_form
                   Sample.getAdditionalSchemata Sample.json_compatible
                   (Sample.fti "Document" "IDocument") None
                   (Sample.fieldsets_of "IDocument") _ _ _));
    reflexivity.
Defined.

(** The pass over the modes needs a property for every field that has a
    mode. *)
Lemma setitem2_get_None {V : Type} k1 k2 (v : V) d d' :
  setitem2 k1 k2 v d = Ok d' ->
  forall k, Dict.get k d' = None <-> Dict.get k d = None.
Proof.
  unfold setitem2, Dict.getitem.
  destruct (Dict.get k1 d) as [inner|] eqn:E; cbn [bind]; [|discriminate].
  intros [= <-] k. destruct (string_dec k1 k) as [<-|Hne].
  - rewrite DictFacts.get_set_same, E. split; discriminate.
  - now rewrite DictFacts.get_set_other.
Qed.

Lemma modes_loop_needs_property fs : forall props props',
  modes_loop fs props = Ok props' ->
  forall f m, In f fs -> mode f = Some m -> str_truthy m = true ->
    Dict.get (getName (field f)) props <> None.
Proof.
  induction fs as [|f0 rest IH]; intros props props' H f m Hin Hm Ht;
    [destruct Hin|].
  cbn [modes_loop] in H.
  destruct Hin as [->|Hin].
  - rewrite Hm, Ht in H.
    unfold setitem2, Dict.getitem in H. intros Hn.
    unfold Properties, Property in *. rewrite Hn in H. discriminate H.
  - destruct (mode f0) as [m0|]; [destruct (str_truthy m0)|]; eauto.
    destruct (setitem2 (getName (field f0)) "mode" (PStr m0) props)
      as [props1|] eqn:E; cbn [bind] in H; [|discriminate].
    rewrite <- (setitem2_get_None _ _ _ _ _ E). eauto.
Qed.

(** A field that has a mode and is excluded keeps the document from being
    built. *)
Lemma excluded_field_with_mode_fails
    registry translate create_form getAdditionalSchemata json_compatible
    fti excluded fieldsets f m :
  lookup_fieldsets translate create_form getAdditionalSchemata fti
    = Ok fieldsets ->
  In f (iter_fields fieldsets) ->
  mode f = Some m -> str_truthy m = true ->
  In (getName (field f)) excluded ->
  forall doc,
    get_jsonschema_for_fti registry translate create_form
      getAdditionalSchemata json_compatible fti (Some excluded) <> Ok doc.
Proof.
  intros Hfs Hin Hm Ht Hex doc H.
  unfold get_jsonschema_for_fti in H. rewrite Hfs in H. cbn [bind] in H.
  destruct (get_jsonschema_properties registry fieldsets "" (Some excluded) None)
    as [props|] eqn:Ep; cbn [bind] in H; [|discriminate].
  destruct (modes_loop (iter_fields fieldsets) props) as [props'|] eqn:Em;
    cbn [bind] in H; [|discriminate].
  apply (modes_loop_needs_property _ _ _ Em f m Hin Hm Ht).
  unfold get_jsonschema_properties in Ep.
  apply (loop_absent registry "" excluded None (getName (field f))
           (iter_fields fieldsets) [] props Hex); auto.
  discriminate.
Qed.

(** C3: the pass over the field modes looks up the property of every
    field that has a mode, excluded or not: for the sample event type,
    whose field "secret" is hidden, excluding that field makes the call
    raise [KeyError] instead of returning a document. *)
Theorem mode_of_excluded_field_raises_KeyError :
  In Sample.f_secret (iter_fields (Sample.fieldsets_of "IEvent")) /\
  mode Sample.f_secret = Some "hidden" /\
  get_jsonschema_for_fti Sample.registry Sample.translate Sample.create_form
    Sample.getAdditionalSchemata Sample.json_compatible
    (Sample.fti "Event" "IEvent") (Some ["secret"])
  = Raise (KeyError "secret").
Proof.
  split; [|split].
  - simpl. auto.
  - reflexivity.
  - reflexivity.
Qed.

(** ** The single-field query *)

Section FieldInfo.

Variable registry : string -> string -> option (ZField -> string -> Property).
Variable py_str : PyVal -> string.
Variable json_compatible : PyVal -> PyVal.

Local Abbreviation fields_loop := (info_fields_loop registry py_str json_compatible).
Local Abbreviation fieldsets_loop := (info_loop registry py_str json_compatible).

Lemma setitem2_single N k (v : PyVal) (p : Property) :
  setitem2 N k v ([(N, p)] : Properties)
  = Ok ([(N, Dict.set k v p)] : Properties).
Proof.
  unfold setitem2, Dict.getitem. simpl. now rewrite String.eqb_refl.
Qed.

Lemma decorate_single N f p :
  decorate py_str N f [(N, p)] = Ok [(N, decorated py_str f p)].
Proof.
  unfold decorate, decorated.
  repeat (rewrite setitem2_single; cbn [bind]).
  reflexivity.
Qed.

Lemma fields_loop_none fieldset N fs :
  (forall h, In h fs -> getName (field h) <> N) ->
  fields_loop fieldset N fs = None.
Proof.
  induction fs as [|h rest IH]; intros Hno; simpl; auto.
  destruct (String.eqb (getName (field h)) N) eqn:E.
  - apply String.eqb_eq in E. exfalso. apply (Hno h); auto. now left.
  - apply IH. intros g Hg. apply Hno. now right.
Qed.

Lemma fields_loop_found fieldset N before f after :
  (forall h, In h before -> getName (field h) <> N) ->
  getName (field f) = N ->
  fields_loop fieldset N (before ++ f :: after) =
  Some (properties <-
          get_jsonschema_properties registry [fieldset] "" None (Some N) ;;
        properties <- decorate py_str N (field f) properties ;;
        Ok (InfoProperties (IJsonCompatible json_compatible properties))).
Proof.
  intros Hno Hf. induction before as [|h rest IH]; simpl.
  - rewrite Hf, String.eqb_refl. reflexivity.
  - destruct (String.eqb (getName (field h)) N) eqn:E.
    + apply String.eqb_eq in E. exfalso. apply (Hno h); auto. now left.
    + apply IH. intros g Hg. apply Hno. now right.
Qed.

Lemma fieldsets_loop_app N pre rest :
  unmatched N pre ->
  fieldsets_loop N (pre ++ rest) = fieldsets_loop N rest.
Proof.
  induction pre as [|g pre IH]; intros Hno; auto.
  destruct (Hno g) as [Hid Hfields]; [now left|].
  change ((g :: pre) ++ rest)%list with (g :: (pre ++ rest))%list.
  cbn [info_loop].
  apply String.eqb_neq in Hid. rewrite Hid.
  rewrite fields_loop_none by exact Hfields.
  apply IH. intros g' Hg'. apply Hno. now right.
Qed.

Lemma fieldsets_loop_unmatched N fieldsets :
  unmatched N fieldsets -> fieldsets_loop N fieldsets = Ok not_found.
Proof.
  intros Hno. rewrite <- (app_nil_r fieldsets).
  now rewrite fieldsets_loop_app.
Qed.

End FieldInfo.

(** C9: a name that is neither the id of a fieldset nor the name of a
    field in one gets the not-found message as a plain result; so does
    any name when the type has no schema. *)
Theorem unknown_name_gives_message
    registry translate create_form getAdditionalSchemata portal_types
    py_str json_compatible portal_type fti N :
  portal_types portal_type = Some fti ->
  (lookupSchema fti = Raise AttributeError ->
   get_info_for_field registry translate create_form getAdditionalSchemata
     portal_types py_str json_compatible portal_type N
   = Ok (InfoDict
           [("message",
             PStr "No entry could be found for the supplied name.")])) /\
  (forall fieldsets,
     lookup_fieldsets translate create_form getAdditionalSchemata fti
       = Ok fieldsets ->
     unmatched N fieldsets ->
     get_info_for_field registry translate create_form getAdditionalSchemata
       portal_types py_str json_compatible portal_type N
     = Ok (InfoDict
             [("message",
               PStr "No entry could be found for the supplied name.")])).
Proof.
  intros Hfti. unfold get_info_for_field. rewrite Hfti. split.
  - intros Hs. unfold lookup_fieldsets. rewrite Hs. reflexivity.
  - intros fieldsets Hfs Hno. rewrite Hfs. cbn [bind].
    now apply fieldsets_loop_unmatched.
Qed.

Lemma unknown_name_gives_message_witness :
  get_info_for_field Sample.registry Sample.translate Sample.create_form
    Sample.getAdditionalSchemata Sample.portal_types Sample.py_str
    Sample.json_compatible "Plone Site" "title"
  = Ok not_found /\
  get_info_for_field Sample.registry Sample.translate Sample.create_form
    Sample.getAdditionalSchemata Sample.portal_types Sample.py_str
    Sample.json_compatible "Document" "nonexistent"
  = Ok not_found.
Proof.
  split.
  - apply (proj1 (unknown_name_gives_message Sample.registry
                    Sample.translate Sample.create_form
                    Sample.getAdditionalSchemata Sample.portal_types
                    Sample.py_str Sample.json_compatible
                    "Plone Site" Sample.fti_site "title" eq_refl)).
    reflexivity.
  - apply (proj2 (unknown_name_gives_message Sample.registry
                    Sample.translate Sample.create_form
                    Sample.getAdditionalSchemata Sample.portal_types
                    Sample.py_str Sample.json_compatible
                    "Document" (Sample.fti "Document" "IDocument")
                    "nonexistent" eq_refl)
             (Sample.fieldsets_of "IDocument")).
    + reflexivity.
    + intros g [<-|[<-|[]]]; (split; [discriminate|]); simpl.
      * intros h [<-|[<-|[]]]; discriminate.
      * intros h [<-|[]]; discriminate.
Defined.

(** C10: ids and field names are matched fieldset by fieldset.  When the
    first match for [N] is a field, in a fieldset that comes before a
    fieldset whose id is [N], the query returns the decorated property of
    that field and not the summary of the later fieldset. *)
Theorem field_found_before_fieldset_of_same_name
    registry translate create_form getAdditionalSchemata portal_types
    py_str json_compatible portal_type fti N
    pre fieldset post before f after a later :
  portal_types portal_type = Some fti ->
  lookup_fieldsets translate create_form getAdditionalSchemata fti
    = Ok (pre ++ fieldset :: post)%list ->
  unmatched N pre ->
  id fieldset <> N ->
  fields fieldset = (before ++ f :: after)%list ->
  (forall h, In h before -> getName (field h) <> N) ->
  getName (field f) = N ->
  (forall h, In h before -> exists b, lookup_adapter registry h = Ok b) ->
  lookup_adapter registry f = Ok a ->
  In later post ->
  id later = N ->
  get_info_for_field registry translate create_form getAdditionalSchemata
    portal_types py_str json_compatible portal_type N
  = Ok (InfoProperties
          (IJsonCompatible json_compatible
             [(N, decorated py_str (field f) (get_schema (set_prefix a "")))]))
  /\
  forall summary,
    In summary (get_fieldset_infos [later]) ->
    get_info_for_field registry translate create_form getAdditionalSchemata
      portal_types py_str json_compatible portal_type N
    <> Ok (InfoFieldset summary).
Proof.
  intros Hfti Hfs Hpre Hid Hfields Hbefore Hf Hads Ha _ _.
  assert (Hres :
    get_info_for_field registry translate create_form getAdditionalSchemata
      portal_types py_str json_compatible portal_type N
    = Ok (InfoProperties
            (IJsonCompatible json_compatible
               [(N, decorated py_str (field f)
                      (get_schema (set_prefix a "")))]))).
  { unfold get_info_for_field. rewrite Hfti, Hfs. cbn [bind].
    rewrite fieldsets_loop_app by exact Hpre.
    cbn [info_loop].
    apply String.eqb_neq in Hid. rewrite Hid.
    rewrite Hfields, fields_loop_found by auto.
    rewrite (fname_found_single registry [fieldset] "" None N before f after a).
    - cbn [bind]. unfold stored. rewrite Hf, output_key_empty.
      now rewrite decorate_single.
    - unfold iter_fields. simpl. rewrite app_nil_r. exact Hfields.
    - exact Hbefore.
    - exact Hf.
    - intros g Hg. apply filter_In in Hg. apply Hads. tauto.
    - exact Ha. }
  split; [exact Hres|].
  intros summary _. rewrite Hres. discriminate.
Qed.

Lemma field_found_before_fieldset_of_same_name_witness :
  get_info_for_field Sample.registry Sample.translate Sample.create_form
    Sample.getAdditionalSchemata Sample.portal_types Sample.py_str
    Sample.json_compatible "Summary" "summary"
  = Ok (InfoProperties
          [("summary",
            [("type", PStr "string"); ("title", PStr "summary");
             ("default", PNone); ("defaultFactory", PNone);
             ("interface", PStr "None"); ("max_length", PNone);
             ("min_length", PNone); ("missing_value", PNone);
             ("order", PNone); ("readonly", PNone);
             ("required", PBool false)])]).
Proof.
  refine (proj1 (field_found_before_fieldset_of_same_name
                   Sample.registry Sample.translate Sample.create_form
                   Sample.getAdditionalSchemata Sample.portal_types
                   Sample.py_str Sample.json_compatible
                   "Summary" (Sample.fti "Summary" "ISummary") "summary"
                   []
                   {| id := "default"; title := "Default";
                      fields := [Sample.f_title; Sample.f_summary] |}
                   [ {| id := "summary"; title := "Summary";
                        fields := [Sample.f_related] |} ]
                   [Sample.f_title] Sample.f_summary []
                   {| adapter_field := field Sample.f_summary; prefix := "";
                      provider := Sample.text_provider |}
                   {| id := "summary"; title := "Summary";
                      fields := [Sample.f_related] |}
                   _ _ _ _ _ _ _ _ _ _ _)); try reflexivity.
  - intros g [].
  - discriminate.
  - intros h [<-|[]]. discriminate.
  - intros h [<-|[]]. eexists. reflexivity.
  - now left.
Defined.

(** ** Widget parameters *)

Lemma set_set {V : Type} k (v v' : V) (d : Dict.t V) :
  Dict.set k v' (Dict.set k v d) = Dict.set k v' d.
Proof.
  induction d as [|[k0 v0] d IH]; simpl.
  - now rewrite String.eqb_refl.
  - destruct (String.eqb k0 k) eqn:E; simpl; rewrite E; auto.
    now rewrite IH.
Qed.

Lemma set_get_same {V : Type} k (v : V) (d : Dict.t V) :
  Dict.get k d = Some v -> Dict.set k v d = d.
Proof.
  induction d as [|[k0 v0] d IH]; simpl; [discriminate|].
  destruct (String.eqb k0 k) eqn:E.
  - now intros [= ->].
  - intros H. now rewrite IH.
Qed.


(** *** One value, and the items of one widget *)

Lemma resolve_ok v log v' log' :
  resolve v log = Ok (v', log') ->
  returned v v' /\ log' = (log ++ callee v)%list.
Proof.
  unfold resolve, returned.
  destruct v; simpl; try (intros [= <- <-]; now rewrite ?app_nil_r).
  destruct (body log) as [r|] eqn:E; cbn [bind]; [|discriminate].
  intros [= <- <-]. split; eauto.
Qed.



Lemma resolve_items_ok items : forall log vals log',
  resolve_items items log = Ok (vals, log') ->
  resolves_to items vals /\
  log' = (log ++ flat_map (fun kv => callee (snd kv)) items)%list.
Proof.
  induction items as [|[k v] rest IH]; intros log vals log' H;
    cbn [resolve_items] in H.
  - injection H as <- <-. split; [constructor | now rewrite app_nil_r].
  - destruct (resolve v log) as [[v1 l1]|] eqn:Ev; cbn [bind fst snd] in H;
      [|discriminate].
    destruct (resolve_items rest l1) as [[vals1 l2]|] eqn:Er;
      cbn [bind fst snd] in H; [|discriminate].
    injection H as <- <-.
    apply resolve_ok in Ev. destruct Ev as [Hret ->].
    apply IH in Er. destruct Er as [Hres ->].
    split.
    + constructor; auto.
    + cbn [flat_map snd]. now rewrite <- app_assoc.
Qed.







Lemma store_all_nonempty vals : forall inner,
  inner <> [] -> store_all vals inner <> [].
Proof.
  induction vals as [|[k v] rest IH]; intros inner H; auto.
  cbn [store_all fold_left]. apply IH.
  destruct inner as [|[k0 v0] inner]; [contradiction|].
  simpl. destruct (String.eqb k0 k); discriminate.
Qed.

Lemma items_loop_resolve fld items : forall params log inner,
  Dict.get fld params = Some inner ->
  items_loop fld items params log =
  (rl <- resolve_items items log ;;
   Ok (Dict.set fld (store_all (fst rl) inner) params, snd rl)).
Proof.
  induction items as [|[k v] rest IH]; intros params log inner Hget.
  - simpl. now rewrite set_get_same.
  - cbn [items_loop resolve_items]. fold (resolve v log).
    destruct (resolve v log) as [[v1 l1]|]; cbn [bind fst snd]; auto.
    unfold setitem2, Dict.getitem. rewrite Hget. cbn [bind].
    rewrite (IH _ _ (Dict.set k v1 inner))
      by apply DictFacts.get_set_same.
    destruct (resolve_items rest l1) as [[vals l2]|]; cbn [bind fst snd];
      auto.
    now rewrite set_set.
Qed.

(** *** The loops over the field names and over the schemas *)

Lemma names_loop_cons tagged_values n rest params log :
  names_loop tagged_values (n :: rest) params log =
  (pl <- name_step tagged_values n params log ;;
   names_loop tagged_values rest (fst pl) (snd pl)).
Proof.
  cbn [names_loop]. unfold name_step, widget_params.
  destruct (Dict.get n tagged_values) as [w|];
    [destruct w as [ps|other]; [destruct ps as [|kv items]|]|];
    cbn [bind fst snd]; try reflexivity.
  rewrite (items_loop_resolve n (kv :: items) _ log [])
    by apply DictFacts.get_set_same.
  destruct (resolve_items (kv :: items) log) as [[vals l1]|];
    cbn [bind fst snd]; auto.
  now rewrite set_set.
Qed.

Lemma name_step_ok tagged_values n params log params' log' :
  name_step tagged_values n params log = Ok (params', log') ->
  (widget_params tagged_values n = [] /\ params' = params /\ log' = log) \/
  (exists kv items vals,
     widget_params tagged_values n = kv :: items /\
     resolve_items (kv :: items) log = Ok (vals, log') /\
     params' = Dict.set n (store_all vals []) params).
Proof.
  unfold name_step.
  destruct (widget_params tagged_values n) as [|kv items].
  - intros [= <- <-]. now left.
  - destruct (resolve_items (kv :: items) log) as [[vals l1]|] eqn:Er;
      cbn [bind fst snd]; [|discriminate].
    intros [= <- <-]. right. exists kv, items, vals. auto.
Qed.

Lemma names_loop_inv (I : Params -> Prop) tagged_values field_names :
  (forall n p l p' l',
     In n field_names -> I p ->
     name_step tagged_values n p l = Ok (p', l') -> I p') ->
  forall p l p' l',
    I p -> names_loop tagged_values field_names p l = Ok (p', l') -> I p'.
Proof.
  induction field_names as [|n rest IH]; intros Hstep p l p' l' Hp H.
  - injection H as <- _. exact Hp.
  - rewrite names_loop_cons in H.
    destruct (name_step tagged_values n p l) as [[p1 l1]|] eqn:E;
      cbn [bind fst snd] in H; [|discriminate].
    apply (IH (fun n0 q m q' m' Hn => Hstep n0 q m q' m' (or_intror Hn))
              p1 l1 p' l'); auto.
    apply (Hstep n p l p1 l1); auto. now left.
Qed.

Lemma schemas_loop_inv (I : Params -> Prop) schemas :
  (forall s n p l p' l',
     In (Some s) schemas -> In n (names s) -> I p ->
     name_step (mergedTaggedValueDict s) n p l = Ok (p', l') -> I p') ->
  forall p l p' l',
    I p -> schemas_loop schemas p l = Ok (p', l') -> I p'.
Proof.
  induction schemas as [|[s|] rest IH]; intros Hstep p l p' l' Hp H;
    cbn [schemas_loop] in H.
  - injection H as <- _. exact Hp.
  - destruct (names_loop (mergedTaggedValueDict s) (names s) p l)
      as [[p1 l1]|] eqn:E; cbn [bind fst snd] in H; [|discriminate].
    apply (IH (fun s0 n q m q' m' Hs => Hstep s0 n q m q' m' (or_intror Hs))
              p1 l1 p' l'); auto.
    apply (names_loop_inv I (mergedTaggedValueDict s) (names s)
             (fun n q m q' m' Hn => Hstep s n q m q' m'
                                      (or_introl eq_refl) Hn)
             p l p1 l1); auto.
  - apply (IH (fun s0 n q m q' m' Hs => Hstep s0 n q m q' m' (or_intror Hs))
              p l p' l'); auto.
Qed.













(** *** The entries of the mapping *)


Lemma name_step_declared schemas s n p l p' l' :
  In (Some s) schemas -> In n (names s) ->
  declared_by schemas p ->
  name_step (mergedTaggedValueDict s) n p l = Ok (p', l') ->
  declared_by schemas p'.
Proof.
  intros Hs Hn Hp H. apply name_step_ok in H.
  destruct H as [[_ [-> _]]|[kv [items [vals [Ew [Hr ->]]]]]]; auto.
  apply resolve_items_ok in Hr. destruct Hr as [Hres _].
  intros n0 inner Hget.
  destruct (string_dec n n0) as [->|Hne].
  - rewrite DictFacts.get_set_same in Hget. injection Hget as <-.
    split.
    + inversion Hres as [|? [k1 v1] ? vs1 _ _]; subst.
      cbn [store_all fold_left]. apply store_all_nonempty.
      simpl. discriminate.
    + exists s, kv, items. repeat split; auto.
      unfold widget_params in Ew.
      destruct (Dict.get n0 (mergedTaggedValueDict s)) as [[ps|]|];
        try discriminate.
      now subst.
  - rewrite DictFacts.get_set_other in Hget by auto. now apply Hp.
Qed.






Lemma get_widget_params_declared schemas log params calls :
  get_widget_params schemas log = Ok (params, calls) ->
  declared_by schemas params.
Proof.
  intros H.
  apply (schemas_loop_inv (declared_by schemas) schemas)
    with (p := []) (l := log) (l' := calls); auto.
  - intros s n p l p' l' Hs Hn Hp Hstep.
    now apply (name_step_declared schemas s n p l p' l').
  - intros n inner Hf. discriminate.
Qed.

(** Two callables the theorems on the resolver must set apart: one that
    needs an argument, so that the call [v()] raises, and one whose
    result depends on the calls made before. *)
Lemma callable_needing_an_argument_raises log :
  get_widget_params [Some Sample.needy_schema] log = Raise TypeError.
Proof. reflexivity. Qed.

Lemma impure_callable_gives_another_mapping :
  get_widget_params [Some Sample.counting_schema] []
  = Ok ([("serial", [("next", PInt 0)])], ["next_serial"]) /\
  get_widget_params [Some Sample.counting_schema] ["next_serial"]
  = Ok ([("serial", [("next", PInt 1)])], ["next_serial"; "next_serial"]).
Proof. split; reflexivity. Qed.




(** * Further properties *)

(** ** The document and its fieldset summaries *)

Lemma listed_names_infos fieldsets :
  listed_names (get_fieldset_infos fieldsets) = field_names (iter_fields fieldsets).
Proof.
  unfold listed_names, field_names, get_fieldset_infos, iter_fields.
  induction fieldsets as [|g rest IH]; simpl; auto.
  now rewrite map_app, IH.
Qed.

Lemma setitem2_keys {V : Type} k1 k2 (v : V) d d' :
  setitem2 k1 k2 v d = Ok d' -> Dict.keys d' = Dict.keys d.
Proof.
  unfold setitem2, Dict.getitem.
  destruct (Dict.get k1 d) as [inner|] eqn:E; cbn [bind]; [|discriminate].
  intros [= <-]. rewrite DictFacts.keys_set.
  apply DictFacts.get_Some_keys, in_list_true in E. now rewrite E.
Qed.

Lemma modes_loop_keys fs : forall props props',
  modes_loop fs props = Ok props' -> Dict.keys props' = Dict.keys props.
Proof.
  induction fs as [|f rest IH]; intros props props' H; cbn [modes_loop] in H.
  - now injection H as <-.
  - destruct (mode f) as [m|]; [destruct (str_truthy m)|]; eauto.
    destruct (setitem2 (getName (field f)) "mode" (PStr m) props)
      as [props1|] eqn:E; cbn [bind] in H; [|discriminate].
    apply IH in H. rewrite H. eapply setitem2_keys; eauto.
Qed.

Lemma IJsonCompatible_keys json_compatible props :
  Dict.keys (IJsonCompatible json_compatible props) = Dict.keys props.
Proof.
  unfold IJsonCompatible, Dict.keys. rewrite map_map. reflexivity.
Qed.

(** The parts a returned document is made of. *)
Lemma document_parts
    registry translate create_form getAdditionalSchemata json_compatible
    fti excluded_fields fieldsets doc :
  lookup_fieldsets translate create_form getAdditionalSchemata fti
    = Ok fieldsets ->
  get_jsonschema_for_fti registry translate create_form getAdditionalSchemata
    json_compatible fti excluded_fields = Ok doc ->
  exists props props',
    properties_loop registry "" (excluded_list excluded_fields) None
      (iter_fields fieldsets) [] = Ok props /\
    modes_loop (iter_fields fieldsets) props = Ok props' /\
    doc = {| doc_type := "object";
             doc_title := translate (Title fti) None None;
             doc_properties := IJsonCompatible json_compatible props';
             doc_required := required_loop (iter_fields fieldsets) [];
             doc_fieldsets := get_fieldset_infos fieldsets;
             doc_layouts := match view_methods fti with
                            | Some l => l
                            | None => []
                            end |}.
Proof.
  intros Hfs Hdoc.
  unfold get_jsonschema_for_fti in Hdoc. rewrite Hfs in Hdoc.
  cbn [bind] in Hdoc. unfold get_jsonschema_properties in Hdoc.
  fold (excluded_list excluded_fields) in Hdoc.
  destruct (properties_loop registry "" _ None (iter_fields fieldsets) [])
    as [props|] eqn:Ep; cbn [bind] in Hdoc; [|discriminate].
  destruct (modes_loop (iter_fields fieldsets) props) as [props'|] eqn:Em;
    cbn [bind] in Hdoc; [|discriminate].
  injection Hdoc as <-. exists props, props'. repeat split; auto.
Qed.

(** X1: in a returned document the fieldset summaries list the names of
    all fields in traversal order, excluded ones included; the keys of
    the properties are exactly the names of the fields that are not
    excluded; so every property key and every required name is listed in
    a fieldset summary. *)
Theorem document_names_are_listed
    registry translate create_form getAdditionalSchemata json_compatible
    fti excluded_fields fieldsets doc :
  lookup_fieldsets translate create_form getAdditionalSchemata fti
    = Ok fieldsets ->
  get_jsonschema_for_fti registry translate create_form getAdditionalSchemata
    json_compatible fti excluded_fields = Ok doc ->
  listed_names (doc_fieldsets doc) = field_names (iter_fields fieldsets) /\
  (forall k, In k (Dict.keys (doc_properties doc)) <->
     In k (field_names (iter_fields fieldsets)) /\
     ~ In k (excluded_list excluded_fields)) /\
  incl (Dict.keys (doc_properties doc)) (listed_names (doc_fieldsets doc)) /\
  incl (doc_required doc) (listed_names (doc_fieldsets doc)).
Proof.
  intros Hfs Hdoc.
  destruct (document_parts _ _ _ _ _ _ _ _ _ Hfs Hdoc)
    as [props [props' [Hp [Hm ->]]]].
  cbn [doc_fieldsets doc_properties doc_required].
  rewrite listed_names_infos, IJsonCompatible_keys, (modes_loop_keys _ _ _ Hm).
  apply loop_keys in Hp. cbn [Dict.keys map app] in Hp.
  assert (Hkeys : forall k, In k (Dict.keys props) <->
            In k (field_names (iter_fields fieldsets)) /\
            ~ In k (excluded_list excluded_fields)).
  { intros k. rewrite Hp. fold (first_seen
      (map (fun f => output_key "" (getName (field f)))
           (emitted (excluded_list excluded_fields) (iter_fields fieldsets)))).
    rewrite first_seen_In. unfold field_names, emitted.
    rewrite !in_map_iff. split.
    - intros [f [<- Hf]]. apply filter_In in Hf. destruct Hf as [Hin Hex].
      apply negb_true_iff, in_list_false in Hex.
      split; [exists f; auto | exact Hex].
    - intros [[f [<- Hin]] Hex]. exists f. split; auto.
      apply filter_In. split; auto.
      now apply negb_true_iff, in_list_false. }
  split; [reflexivity|]. split; [exact Hkeys|]. split.
  - intros k Hk. now apply Hkeys in Hk.
  - intros n Hn. rewrite required_loop_spec in Hn. cbn [app] in Hn.
    unfold field_names. rewrite in_map_iff in *.
    destruct Hn as [f [<- Hf]]. apply filter_In in Hf. exists f. tauto.
Qed.

Lemma document_names_are_listed_witness :
  exists doc,
    get_jsonschema_for_fti Sample.registry Sample.translate Sample.create_form
      Sample.getAdditionalSchemata Sample.json_compatible
      (Sample.fti "Document" "IDocument") (Some ["summary"]) = Ok doc /\
    listed_names (doc_fieldsets doc) = ["title"; "summary"; "relatedItems"] /\
    Dict.keys (doc_properties doc) = ["title"; "relatedItems"].
Proof.
  eexists. split; [reflexivity|]. split; [|reflexivity].
  refine (proj1 (document_names_are_listed Sample.registry
                   Sample.translate Sample.create_form
                   Sample.getAdditionalSchemata Sample.json_compatible
                   (Sample.fti "Document" "IDocument") (Some ["summary"])
                   (Sample.fieldsets_of "IDocument") _ _ _));
    reflexivity.
Defined.

(** X2: [excluded_fields] only filters the properties: two documents of a
    type built with different exclusions have the same title, required
    names, fieldset summaries and layouts. *)
Theorem exclusion_only_filters_properties
    registry translate create_form getAdditionalSchemata json_compatible
    fti excluded1 excluded2 doc1 doc2 :
  get_jsonschema_for_fti registry translate create_form getAdditionalSchemata
    json_compatible fti excluded1 = Ok doc1 ->
  get_jsonschema_for_fti registry translate create_form getAdditionalSchemata
    json_compatible fti excluded2 = Ok doc2 ->
  doc_type doc1 = doc_type doc2 /\
  doc_title doc1 = doc_title doc2 /\
  doc_required doc1 = doc_required doc2 /\
  doc_fieldsets doc1 = doc_fieldsets doc2 /\
  doc_layouts doc1 = doc_layouts doc2.
Proof.
  intros H1 H2.
  destruct (lookup_fieldsets translate create_form getAdditionalSchemata fti)
    as [fieldsets|e] eqn:Hfs.
  - destruct (document_parts _ _ _ _ _ _ _ _ _ Hfs H1) as [? [? [_ [_ ->]]]].
    destruct (document_parts _ _ _ _ _ _ _ _ _ Hfs H2) as [? [? [_ [_ ->]]]].
    repeat split.
  - unfold get_jsonschema_for_fti in H1. rewrite Hfs in H1. discriminate.
Qed.

Lemma exclusion_only_filters_properties_witness :
  exists doc1 doc2,
    get_jsonschema_for_fti Sample.registry Sample.translate Sample.create_form
      Sample.getAdditionalSchemata Sample.json_compatible
      (Sample.fti "Document" "IDocument") None = Ok doc1 /\
    get_jsonschema_for_fti Sample.registry Sample.translate Sample.create_form
      Sample.getAdditionalSchemata Sample.json_compatible
      (Sample.fti "Document" "IDocument") (Some ["title"]) = Ok doc2 /\
    doc_required doc1 = doc_required doc2.
Proof.
  eexists. eexists. split; [reflexivity|]. split; [reflexivity|].
  refine (proj1 (proj2 (proj2 (exclusion_only_filters_properties
            Sample.registry Sample.translate Sample.create_form
            Sample.getAdditionalSchemata Sample.json_compatible
            (Sample.fti "Document" "IDocument") None (Some ["title"])
            _ _ _ _)))); reflexivity.
Defined.

(** ** Field modes in the document *)

Lemma get_map_values {V W : Type} (g : V -> W) k (d : Dict.t V) :
  Dict.get k (map (fun kv => (fst kv, g (snd kv))) d)
  = option_map g (Dict.get k d).
Proof.
  induction d as [|[k0 v0] d IH]; simpl; auto.
  now destruct (String.eqb k0 k).
Qed.

Lemma modes_loop_get fs : forall props props' n p,
  modes_loop fs props = Ok props' ->
  Dict.get n props = Some p ->
  Dict.get n props' =
  Some (match last_mode n fs with
        | Some m => Dict.set "mode" (PStr m) p
        | None => p
        end).
Proof.
  induction fs as [|f rest IH]; intros props props' n p H Hget;
    cbn [modes_loop last_mode] in *.
  - injection H as <-. exact Hget.
  - destruct (mode f) as [m|] eqn:Em; [destruct (str_truthy m) eqn:Et|].
    + destruct (setitem2 (getName (field f)) "mode" (PStr m) props)
        as [props1|] eqn:E; cbn [bind] in H; [|discriminate].
      unfold setitem2, Dict.getitem in E.
      unfold Properties, Property in *.
      destruct (Dict.get (getName (field f)) props) as [inner|] eqn:Ei;
        cbn [bind] in E; [|discriminate].
      injection E as <-.
      destruct (String.eqb (getName (field f)) n) eqn:En.
      * apply String.eqb_eq in En. subst n.
        assert (inner = p) by congruence. subst inner.
        rewrite (IH _ _ _ _ H (DictFacts.get_set_same _ _ _)).
        destruct (last_mode (getName (field f)) rest); auto.
        now rewrite set_set.
      * apply String.eqb_neq in En.
        rewrite (IH _ _ _ p H) by (rewrite DictFacts.get_set_other; auto).
        now destruct (last_mode n rest).
    + rewrite (IH _ _ _ _ H Hget).
      destruct (last_mode n rest); auto.
      now destruct (String.eqb (getName (field f)) n).
    + rewrite (IH _ _ _ _ H Hget).
      destruct (last_mode n rest); auto.
      now destruct (String.eqb (getName (field f)) n).
Qed.

Lemma last_mode_In n fs m :
  last_mode n fs = Some m ->
  exists g, In g fs /\ getName (field g) = n /\ mode g = Some m
            /\ str_truthy m = true.
Proof.
  induction fs as [|f rest IH]; cbn [last_mode]; [discriminate|].
  destruct (last_mode n rest) as [m'|].
  - intros [= <-]. destruct IH as [g [Hg H]]; auto.
    exists g. split; auto. now right.
  - destruct (String.eqb (getName (field f)) n) eqn:En; [|discriminate].
    destruct (mode f) as [m0|] eqn:Em; [|discriminate].
    destruct (str_truthy m0) eqn:Et; [|discriminate].
    intros [= <-]. apply String.eqb_eq in En.
    exists f. repeat split; auto. now left.
Qed.

Lemma last_mode_exists f fs m :
  In f fs -> mode f = Some m -> str_truthy m = true ->
  exists m', last_mode (getName (field f)) fs = Some m'.
Proof.
  induction fs as [|g rest IH]; intros Hin Hm Ht; [destruct Hin|].
  cbn [last_mode].
  destruct (last_mode (getName (field f)) rest) as [m'|] eqn:E; [eauto|].
  destruct Hin as [->|Hin].
  - rewrite String.eqb_refl, Hm, Ht. eauto.
  - destruct (IH Hin Hm Ht) as [m' Hm']. discriminate.
Qed.

Lemma NoDup_names_eq (fs : list FormField) f g :
  NoDup (field_names fs) -> In f fs -> In g fs ->
  getName (field f) = getName (field g) -> f = g.
Proof.
  unfold field_names. induction fs as [|h rest IH]; intros Hnd Hf Hg E;
    [destruct Hf|].
  simpl in Hnd. inversion Hnd as [|? ? Hnotin Hrest]; subst.
  destruct Hf as [->|Hf], Hg as [->|Hg]; auto.
  - exfalso. apply Hnotin. rewrite E.
    exact (in_map (fun x => getName (field x)) rest g Hg).
  - exfalso. apply Hnotin. rewrite <- E.
    exact (in_map (fun x => getName (field x)) rest f Hf).
Qed.

(** X3: in a returned document every field that has a mode has a property,
    and that property carries under "mode" the (converted) mode of the
    last field of that name that has one, which is the field itself when
    field names are distinct; the property of a name whose fields have no
    mode is the converted schema the synthesizer stored, unchanged. *)
Theorem modes_are_attached
    registry translate create_form getAdditionalSchemata json_compatible
    fti excluded_fields fieldsets doc :
  lookup_fieldsets translate create_form getAdditionalSchemata fti
    = Ok fieldsets ->
  get_jsonschema_for_fti registry translate create_form getAdditionalSchemata
    json_compatible fti excluded_fields = Ok doc ->
  (forall f m,
     In f (iter_fields fieldsets) -> mode f = Some m -> str_truthy m = true ->
     exists p m',
       Dict.get (getName (field f)) (doc_properties doc) = Some p /\
       Dict.get "mode" p = Some (json_compatible (PStr m')) /\
       last_mode (getName (field f)) (iter_fields fieldsets) = Some m' /\
       (NoDup (field_names (iter_fields fieldsets)) -> m' = m)) /\
  (forall n props,
     last_mode n (iter_fields fieldsets) = None ->
     get_jsonschema_properties registry fieldsets ""
       excluded_fields None = Ok props ->
     Dict.get n (doc_properties doc)
     = Dict.get n (IJsonCompatible json_compatible props)).
Proof.
  intros Hfs Hdoc.
  destruct (document_parts _ _ _ _ _ _ _ _ _ Hfs Hdoc)
    as [props [props' [Hp [Hm ->]]]].
  cbn [doc_properties]. split.
  - intros f m Hin Hmode Ht.
    destruct (Dict.get (getName (field f)) props) as [p|] eqn:Hget.
    2:{ exfalso.
        apply (modes_loop_needs_property _ _ _ Hm f m Hin Hmode Ht Hget). }
    destruct (last_mode_exists f _ m Hin Hmode Ht) as [m' Hm'].
    pose proof (modes_loop_get _ _ _ _ _ Hm Hget) as Hget'.
    rewrite Hm' in Hget'.
    exists (map (fun e => (fst e, json_compatible (snd e)))
                (Dict.set "mode" (PStr m') p)), m'.
    split; [|split; [|split]].
    + unfold IJsonCompatible.
      rewrite (get_map_values
                 (fun q : Property =>
                    map (fun e => (fst e, json_compatible (snd e))) q)).
      unfold Properties, Property in *. now rewrite Hget'.
    + rewrite get_map_values, DictFacts.get_set_same. reflexivity.
    + exact Hm'.
    + intros Hnd. apply last_mode_In in Hm'.
      destruct Hm' as [g [Hg [Hn [Hmg _]]]].
      assert (g = f) by (apply (NoDup_names_eq _ g f Hnd); auto).
      subst g. congruence.
  - intros n props0 Hlast Hp0.
    unfold get_jsonschema_properties in Hp0.
    fold (excluded_list excluded_fields) in Hp0.
    assert (props0 = props) by congruence. subst props0.
    unfold IJsonCompatible.
    rewrite !(get_map_values
                (fun q : Property =>
                   map (fun e => (fst e, json_compatible (snd e))) q)).
    destruct (Dict.get n props) as [p|] eqn:Hget.
    + pose proof (modes_loop_get _ _ _ _ _ Hm Hget) as Hget'.
      rewrite Hlast in Hget'.
      unfold Properties, Property in *. now rewrite Hget'.
    + apply DictFacts.get_None_keys in Hget.
      rewrite <- (modes_loop_keys _ _ _ Hm) in Hget.
      apply DictFacts.get_None_keys in Hget.
      unfold Properties, Property in *. now rewrite Hget.
Qed.

Lemma modes_are_attached_witness :
  exists doc p,
    get_jsonschema_for_fti Sample.registry Sample.translate Sample.create_form
      Sample.getAdditionalSchemata Sample.json_compatible
      (Sample.fti "Event" "IEvent") None = Ok doc /\
    Dict.get "secret" (doc_properties doc) = Some p /\
    Dict.get "mode" p = Some (PStr "hidden").
Proof.
  eexists.
  destruct (proj1 (modes_are_attached Sample.registry Sample.translate
                     Sample.create_form Sample.getAdditionalSchemata
                     Sample.json_compatible (Sample.fti "Event" "IEvent") None
                     (Sample.fieldsets_of "IEvent") _ eq_refl eq_refl)
                  Sample.f_secret "hidden")
    as [p [m' [Hp [Hmode [Hlast _]]]]]; try reflexivity.
  - simpl. auto.
  - exists p. split; [reflexivity|]. split; [exact Hp|].
    vm_compute in Hlast. injection Hlast as <-. exact Hmode.
Defined.

(** ** More on the property synthesizer *)

Lemma loop_excluded_ext registry pfx excl1 excl2 fname fs : forall acc,
  (forall f, In f fs ->
     in_list (getName (field f)) excl1 = in_list (getName (field f)) excl2) ->
  properties_loop registry pfx excl1 fname fs acc
  = properties_loop registry pfx excl2 fname fs acc.
Proof.
  induction fs as [|f rest IH]; intros acc Hext; auto.
  cbn [properties_loop].
  rewrite <- (Hext f) by now left.
  assert (Hrest : forall g, In g rest ->
            in_list (getName (field g)) excl1
            = in_list (getName (field g)) excl2)
    by (intros g Hg; apply Hext; now right).
  destruct (name_is (getName (field f)) fname); auto.
  destruct (negb (in_list (getName (field f)) excl1)); auto.
  destruct (lookup_adapter registry f); cbn [bind]; auto.
Qed.

(** X4: the synthesizer uses [excluded_fields] only to test the names of
    the fields it meets: two exclusion lists that hold the same names of
    fields give the same result, so names of no field, repetitions and the
    order of the list are of no effect. *)
Theorem excluded_fields_used_as_a_set
    registry fieldsets pfx excluded1 excluded2 fname :
  (forall f, In f (iter_fields fieldsets) ->
     (In (getName (field f)) excluded1 <-> In (getName (field f)) excluded2)) ->
  get_jsonschema_properties registry fieldsets pfx (Some excluded1) fname
  = get_jsonschema_properties registry fieldsets pfx (Some excluded2) fname.
Proof.
  intros H. unfold get_jsonschema_properties. apply loop_excluded_ext.
  intros f Hf. specialize (H f Hf).
  destruct (in_list (getName (field f)) excluded1) eqn:E1,
           (in_list (getName (field f)) excluded2) eqn:E2; auto.
  - apply in_list_true in E1. apply in_list_false in E2. tauto.
  - apply in_list_false in E1. apply in_list_true in E2. tauto.
Qed.

Lemma excluded_fields_used_as_a_set_witness :
  get_jsonschema_properties Sample.registry (Sample.fieldsets_of "IDocument")
    "" (Some ["summary"]) None
  = get_jsonschema_properties Sample.registry (Sample.fieldsets_of "IDocument")
      "" (Some ["nonexistent"; "summary"; "summary"]) None.
Proof.
  apply (excluded_fields_used_as_a_set Sample.registry
           (Sample.fieldsets_of "IDocument") ""
           ["summary"] ["nonexistent"; "summary"; "summary"] None).
  intros f [<-|[<-|[<-|[]]]]; simpl; split; intros H;
    repeat (destruct H as [H|H]; try discriminate H; auto).
Defined.

Lemma in_list_map_output_key p k ks :
  in_list (output_key p k) (map (output_key p) ks) = in_list k ks.
Proof.
  destruct (in_list k ks) eqn:E.
  - apply in_list_true. apply in_list_true in E. now apply in_map.
  - apply in_list_false. apply in_list_false in E.
    rewrite in_map_iff. intros [k' [Hk Hin]].
    apply output_key_inj in Hk. now subst.
Qed.

Lemma lookup_adapter_field registry f a :
  lookup_adapter registry f = Ok a -> adapter_field a = field f.
Proof.
  unfold lookup_adapter, getMultiAdapter, queryMultiAdapter.
  destruct (registry (ftype (field f)) (__name__ f)).
  - now intros [= <-].
  - destruct (registry (ftype (field f)) ""); [|discriminate].
    now intros [= <-].
Qed.

Lemma stored_same_origin registry p all f a accp acc0 :
  In f all -> lookup_adapter registry f = Ok a ->
  same_origin registry p all accp acc0 ->
  same_origin registry p all
    (Dict.set (output_key p (getName (field f))) (get_schema (set_prefix a p))
       accp)
    (Dict.set (getName (field f)) (get_schema (set_prefix a "")) acc0).
Proof.
  intros Hin Ha Hrel k v Hget.
  destruct (string_dec (getName (field f)) k) as [<-|Hne].
  - unfold Properties, Property in *.
    rewrite DictFacts.get_set_same in Hget. injection Hget as <-.
    exists f, a. repeat split; auto.
    + unfold get_schema. simpl. now rewrite (lookup_adapter_field _ _ _ Ha).
    + rewrite DictFacts.get_set_same. unfold get_schema. simpl.
      now rewrite (lookup_adapter_field _ _ _ Ha).
  - unfold Properties, Property in *.
    rewrite DictFacts.get_set_other in Hget by auto.
    destruct (Hrel k v Hget) as [g [b [Hg [Hk [Hb [Hv Hp]]]]]].
    exists g, b. repeat split; auto.
    rewrite DictFacts.get_set_other; auto.
    intros E. apply output_key_inj in E. contradiction.
Qed.

Lemma loop_prefix registry p excl fname all fs : forall accp acc0,
  incl fs all ->
  Dict.keys accp = map (output_key p) (Dict.keys acc0) ->
  same_origin registry p all accp acc0 ->
  match properties_loop registry p excl fname fs accp,
        properties_loop registry "" excl fname fs acc0 with
  | Ok pp, Ok p0 =>
      Dict.keys pp = map (output_key p) (Dict.keys p0) /\
      same_origin registry p all pp p0
  | Raise e, Raise e' => e = e'
  | _, _ => False
  end.
Proof.
  induction fs as [|f rest IH]; intros accp acc0 Hincl Hk Hrel;
    cbn [properties_loop].
  - split; assumption.
  - assert (Hf : In f all) by (apply Hincl; now left).
    assert (Hrest : incl rest all)
      by (intros g Hg; apply Hincl; now right).
    fold (output_key p (getName (field f))).
    change (if str_truthy "" then dotted "" (getName (field f))
            else getName (field f)) with (getName (field f)).
    destruct (name_is (getName (field f)) fname).
    + destruct (lookup_adapter registry f) as [a|] eqn:Ea; cbn [bind];
        [|reflexivity].
      split; [reflexivity|].
      apply (stored_same_origin registry p all f a [] []); auto.
      intros k v Hget. discriminate.
    + destruct (negb (in_list (getName (field f)) excl)); [|now apply IH].
      destruct (lookup_adapter registry f) as [a|] eqn:Ea; cbn [bind];
        [|reflexivity].
      apply IH; auto.
      * rewrite !DictFacts.keys_set, Hk, in_list_map_output_key.
        destruct (in_list (getName (field f)) (Dict.keys acc0)); auto.
        now rewrite map_app.
      * now apply stored_same_origin.
Qed.

(** X5: a non-empty prefix changes the keys, is handed to every adapter,
    and changes nothing else: the call with prefix [p] succeeds exactly
    when the call without prefix does and raises what that one raises;
    its keys are the keys of that one, each turned into ["p.key"], in the
    same order; and under corresponding keys the two results hold what
    the same adapter of the same field computes, given the prefix [p] in
    the one and the empty prefix in the other. *)
Theorem prefix_renames_keys registry fieldsets p excluded_fields fname :
  p <> "" ->
  (forall props_p,
     get_jsonschema_properties registry fieldsets p excluded_fields fname
       = Ok props_p ->
     exists props,
       get_jsonschema_properties registry fieldsets "" excluded_fields fname
         = Ok props /\
       Dict.keys props_p = map (dotted p) (Dict.keys props) /\
       forall k v,
         Dict.get k props = Some v ->
         exists f a,
           In f (iter_fields fieldsets) /\ getName (field f) = k /\
           lookup_adapter registry f = Ok a /\
           v = provider a (field f) "" /\
           Dict.get (dotted p k) props_p = Some (provider a (field f) p)) /\
  (forall e,
     get_jsonschema_properties registry fieldsets p excluded_fields fname
       = Raise e <->
     get_jsonschema_properties registry fieldsets "" excluded_fields fname
       = Raise e).
Proof.
  intros Hp.
  assert (Hkey : forall k, output_key p k = dotted p k).
  { intros k. unfold output_key, str_truthy.
    apply String.eqb_neq in Hp. now rewrite Hp. }
  unfold get_jsonschema_properties.
  assert (H0 : same_origin registry p (iter_fields fieldsets) [] [])
    by (intros k v Hget; discriminate).
  pose proof (loop_prefix registry p (excluded_list excluded_fields) fname
                (iter_fields fieldsets) (iter_fields fieldsets) [] []
                (incl_refl _) eq_refl H0) as H.
  unfold excluded_list in H.
  destruct (properties_loop registry p _ fname (iter_fields fieldsets) [])
    as [pp|ep];
  destruct (properties_loop registry "" _ fname (iter_fields fieldsets) [])
    as [p0|e0]; try contradiction.
  - destruct H as [Hkeys Hrel]. split.
    + intros props_p [= <-]. exists p0. split; auto. split.
      * rewrite Hkeys. apply map_ext. exact Hkey.
      * intros k v Hget.
        destruct (Hrel k v Hget) as [f [a [Hf [Hn [Ha [Hv Hg]]]]]].
        exists f, a. rewrite <- Hkey. auto.
    + intros e. split; discriminate.
  - subst e0. split.
    + discriminate.
    + intros e. tauto.
Qed.

Lemma prefix_renames_keys_witness :
  get_jsonschema_properties Sample.registry (Sample.fieldsets_of "IDocument")
    "parent" None None
  = Ok [("parent.title", Sample.text_provider (field Sample.f_title) "parent");
        ("parent.summary",
         Sample.text_provider (field Sample.f_summary) "parent");
        ("parent.relatedItems",
         Sample.related_provider (field Sample.f_related) "parent")] /\
  exists props,
    get_jsonschema_properties Sample.registry (Sample.fieldsets_of "IDocument")
      "" None None = Ok props /\
    ["parent.title"; "parent.summary"; "parent.relatedItems"]
    = map (dotted "parent") (Dict.keys props) /\
    forall k v,
      Dict.get k props = Some v ->
      exists f a,
        In f (iter_fields (Sample.fieldsets_of "IDocument")) /\
        getName (field f) = k /\
        lookup_adapter Sample.registry f = Ok a /\
        v = provider a (field f) "" /\
        Dict.get (dotted "parent" k)
          [("parent.title",
            Sample.text_provider (field Sample.f_title) "parent");
           ("parent.summary",
            Sample.text_provider (field Sample.f_summary) "parent");
           ("parent.relatedItems",
            Sample.related_provider (field Sample.f_related) "parent")]
        = Some (provider a (field f) "parent").
Proof.
  split; [reflexivity|].
  refine (proj1 (prefix_renames_keys Sample.registry
                   (Sample.fieldsets_of "IDocument") "parent" None None _)
                [("parent.title",
                  Sample.text_provider (field Sample.f_title) "parent");
                 ("parent.summary",
                  Sample.text_provider (field Sample.f_summary) "parent");
                 ("parent.relatedItems",
                  Sample.related_provider (field Sample.f_related) "parent")]
                _).
  - discriminate.
  - reflexivity.
Defined.

Lemma loop_origin registry pfx excl fname fs : forall acc props,
  properties_loop registry pfx excl fname fs acc = Ok props ->
  forall k v, Dict.get k props = Some v ->
    Dict.get k acc = Some v \/
    exists f a,
      In f fs /\
      (name_is (getName (field f)) fname = true
       \/ in_list (getName (field f)) excl = false) /\
      lookup_adapter registry f = Ok a /\
      k = output_key pfx (getName (field f)) /\
      v = provider a (field f) pfx.
Proof.
  induction fs as [|f rest IH]; intros acc props H k v Hget.
  - injection H as <-. now left.
  - destruct (name_is (getName (field f)) fname) eqn:E1.
    + rewrite loop_match in H by auto.
      destruct (lookup_adapter registry f) as [a|] eqn:Ea; cbn [bind] in H;
        [|discriminate].
      injection H as <-. right. exists f, a.
      unfold stored in Hget. simpl in Hget.
      destruct (String.eqb _ k) eqn:Ek; [|discriminate].
      apply String.eqb_eq in Ek. injection Hget as <-.
      repeat split; auto; [now left|].
      unfold get_schema. simpl. now rewrite (lookup_adapter_field _ _ _ Ea).
    + destruct (in_list (getName (field f)) excl) eqn:E2.
      * rewrite loop_skip in H by auto.
        destruct (IH _ _ H k v Hget) as [Hacc|[g [a [Hg Hrest]]]]; auto.
        right. exists g, a. split; auto. now right.
      * rewrite loop_store in H by auto.
        destruct (lookup_adapter registry f) as [a|] eqn:Ea; cbn [bind] in H;
          [|discriminate].
        destruct (IH _ _ H k v Hget) as [Hacc|[g [b [Hg Hrest]]]].
        -- unfold stored in Hacc. cbn [fst snd] in Hacc.
           destruct (string_dec (output_key pfx (getName (field f))) k)
             as [Ek|Ek].
           ++ rewrite Ek, DictFacts.get_set_same in Hacc.
              injection Hacc as <-. right. exists f, a.
              repeat split; auto; [now left|].
              unfold get_schema. simpl.
              now rewrite (lookup_adapter_field _ _ _ Ea).
           ++ rewrite DictFacts.get_set_other in Hacc by auto. now left.
        -- right. exists g, b. split; auto. now right.
Qed.

(** X6: every entry of the mapping the synthesizer returns comes from a
    field of the fieldsets that is named by [fname] or not excluded: its
    key is the (prefixed) name of the field, and its value is the schema
    of the adapter looked up for that field, computed with the prefix of
    the call. *)
Theorem properties_come_from_fields
    registry fieldsets pfx excluded_fields fname props k v :
  get_jsonschema_properties registry fieldsets pfx excluded_fields fname
    = Ok props ->
  Dict.get k props = Some v ->
  exists f a,
    In f (iter_fields fieldsets) /\
    (fname = Some (getName (field f))
     \/ ~ In (getName (field f)) (excluded_list excluded_fields)) /\
    lookup_adapter registry f = Ok a /\
    k = output_key pfx (getName (field f)) /\
    v = provider a (field f) pfx.
Proof.
  intros H Hget. unfold get_jsonschema_properties in H.
  destruct (loop_origin _ _ _ _ _ _ _ H k v Hget)
    as [Hnil|[f [a [Hin [Hwhy [Ha [Hk Hv]]]]]]]; [discriminate|].
  exists f, a. repeat split; auto.
  destruct Hwhy as [Hn|Hex].
  - left. destruct fname as [F|]; [|discriminate].
    apply name_is_Some in Hn. now subst.
  - right. now apply in_list_false.
Qed.

Lemma properties_come_from_fields_witness :
  exists f a,
    In f (iter_fields (Sample.fieldsets_of "IDocument")) /\
    lookup_adapter Sample.registry f = Ok a /\
    "parent.summary" = output_key "parent" (getName (field f)) /\
    Sample.text_provider (field Sample.f_summary) "parent"
    = provider a (field f) "parent".
Proof.
  destruct (properties_come_from_fields Sample.registry
              (Sample.fieldsets_of "IDocument") "parent" None None
              _ "parent.summary"
              (Sample.text_provider (field Sample.f_summary) "parent")
              eq_refl eq_refl)
    as [f [a [Hin [_ [Ha [Hk Hv]]]]]].
  exists f, a. auto.
Defined.

Lemma loop_keeps_other_names registry pfx excl n fs : forall acc props,
  (forall g, In g fs -> getName (field g) <> n) ->
  properties_loop registry pfx excl None fs acc = Ok props ->
  Dict.get (output_key pfx n) props = Dict.get (output_key pfx n) acc.
Proof.
  induction fs as [|f rest IH]; intros acc props Hno H.
  - now injection H as <-.
  - assert (Hrest : forall g, In g rest -> getName (field g) <> n)
      by (intros g Hg; apply Hno; now right).
    destruct (in_list (getName (field f)) excl) eqn:E2.
    + rewrite loop_skip in H by auto. now apply IH.
    + rewrite loop_store in H by auto.
      destruct (lookup_adapter registry f) as [a|]; cbn [bind] in H;
        [|discriminate].
      rewrite (IH _ _ Hrest H). unfold stored. cbn [fst snd].
      apply DictFacts.get_set_other.
      intros E. apply output_key_inj in E. apply (Hno f); auto. now left.
Qed.

(** X7: when several fields have the same name, the property of that name
    is the schema of the last of them (its place among the keys is that
    of the first, by C6): for a field that is not excluded and is followed
    by no field of its name, the returned mapping holds the schema of its
    own adapter. *)
Theorem last_field_of_a_name_wins
    registry fieldsets pfx excluded_fields pre f post props :
  iter_fields fieldsets = (pre ++ f :: post)%list ->
  ~ In (getName (field f)) (excluded_list excluded_fields) ->
  (forall g, In g post -> getName (field g) <> getName (field f)) ->
  get_jsonschema_properties registry fieldsets pfx excluded_fields None
    = Ok props ->
  exists a,
    lookup_adapter registry f = Ok a /\
    Dict.get (output_key pfx (getName (field f))) props
    = Some (provider a (field f) pfx).
Proof.
  intros Hsplit Hex Hpost H.
  unfold get_jsonschema_properties in H. rewrite Hsplit in H.
  fold (excluded_list excluded_fields) in H.
  rewrite loop_app in H by (intros; reflexivity).
  destruct (properties_loop registry pfx _ None pre []) as [acc|];
    cbn [bind] in H; [|discriminate].
  rewrite loop_store in H by (auto; now apply in_list_false).
  destruct (lookup_adapter registry f) as [a|] eqn:Ea; cbn [bind] in H;
    [|discriminate].
  exists a. split; auto.
  rewrite (loop_keeps_other_names _ _ _ _ _ _ _ Hpost H).
  unfold stored. cbn [fst snd]. rewrite DictFacts.get_set_same.
  unfold get_schema. simpl. now rewrite (lookup_adapter_field _ _ _ Ea).
Qed.

Lemma last_field_of_a_name_wins_witness :
  exists props a,
    get_jsonschema_properties Sample.registry (Sample.fieldsets_of "IEvent")
      "" None None = Ok props /\
    lookup_adapter Sample.registry Sample.f_dc_title = Ok a /\
    Dict.get "title" props
    = Some (provider a (field Sample.f_dc_title) "").
Proof.
  exists [("title", Sample.text_provider (field Sample.f_dc_title) "");
          ("secret", Sample.text_provider (field Sample.f_secret) "")].
  destruct (last_field_of_a_name_wins Sample.registry
              (Sample.fieldsets_of "IEvent") "" None
              [Sample.f_title; Sample.f_secret] Sample.f_dc_title []
              [("title", Sample.text_provider (field Sample.f_dc_title) "");
               ("secret", Sample.text_provider (field Sample.f_secret) "")]
              eq_refl) as [a [Ha Hget]]; try reflexivity.
  - simpl. tauto.
  - intros g [].
  - exists a. split; [reflexivity|]. split; [exact Ha | exact Hget].
Defined.

(** ** More on the single-field query *)

Lemma fields_loop_inv registry py_str json_compatible fieldset N fs :
  match info_fields_loop registry py_str json_compatible fieldset N fs with
  | None => forall h, In h fs -> getName (field h) <> N
  | Some r =>
      exists before f after,
        fs = (before ++ f :: after)%list /\
        (forall h, In h before -> getName (field h) <> N) /\
        getName (field f) = N /\
        r = (properties <-
               get_jsonschema_properties registry [fieldset] "" None (Some N) ;;
             properties <- decorate py_str N (field f) properties ;;
             Ok (InfoProperties (IJsonCompatible json_compatible properties)))
  end.
Proof.
  induction fs as [|h rest IH]; cbn [info_fields_loop].
  - intros h [].
  - destruct (String.eqb (getName (field h)) N) eqn:E.
    + apply String.eqb_eq in E. exists [], h, rest.
      repeat split; auto; intros g [].
    + apply String.eqb_neq in E.
      destruct (info_fields_loop registry py_str json_compatible
                  fieldset N rest) as [r|].
      * destruct IH as [before [f [after [-> [Hb [Hf Hr]]]]]].
        exists (h :: before), f, after. repeat split; auto.
        intros g [<-|Hg]; auto.
      * intros g [<-|Hg]; auto.
Qed.

Lemma info_loop_inv registry py_str json_compatible N fieldsets info :
  info_loop registry py_str json_compatible N fieldsets = Ok info ->
  exists pre,
    unmatched N pre /\
    ((info = not_found /\ fieldsets = pre) \/
     (exists fieldset post,
        fieldsets = (pre ++ fieldset :: post)%list /\
        id fieldset = N /\ info = InfoFieldset (summary_of fieldset)) \/
     (exists fieldset post before f after a,
        fieldsets = (pre ++ fieldset :: post)%list /\
        id fieldset <> N /\
        fields fieldset = (before ++ f :: after)%list /\
        (forall h, In h before -> getName (field h) <> N) /\
        getName (field f) = N /\
        lookup_adapter registry f = Ok a /\
        info = InfoProperties
                 (IJsonCompatible json_compatible
                    [(N, decorated py_str (field f)
                           (provider a (field f) ""))]))).
Proof.
  induction fieldsets as [|g rest IH]; cbn [info_loop].
  - intros [= <-]. exists []. split; [intros h []|]. now left.
  - destruct (String.eqb (id g) N) eqn:Eid.
    + apply String.eqb_eq in Eid. simpl. intros [= <-].
      exists []. split; [intros h []|]. right. left.
      exists g, rest. repeat split; auto.
    + apply String.eqb_neq in Eid.
      pose proof (fields_loop_inv registry py_str json_compatible
                    g N (fields g)) as Hinv.
      destruct (info_fields_loop registry py_str json_compatible
                  g N (fields g)) as [r|].
      * destruct Hinv as [before [f [after [Hfs [Hb [Hf ->]]]]]].
        intros H.
        destruct (get_jsonschema_properties registry [g] "" None (Some N))
          as [props|] eqn:Ep; cbn [bind] in H; [|discriminate].
        unfold get_jsonschema_properties, iter_fields in Ep.
        cbn [flat_map] in Ep. rewrite app_nil_r, Hfs in Ep.
        apply loop_first_match in Ep.
        2:{ intros h Hh. apply name_is_false. intros [= E].
            now apply (Hb h). }
        2:{ now apply name_is_Some. }
        destruct Ep as [a [Ha ->]].
        unfold stored in H. rewrite Hf, output_key_empty in H.
        rewrite decorate_single in H. cbn [bind] in H.
        injection H as <-.
        exists []. split; [intros h []|]. right. right.
        exists g, rest, before, f, after, a.
        repeat split; auto.
        unfold get_schema. simpl.
        now rewrite (lookup_adapter_field _ _ _ Ha).
      * intros H. destruct (IH H) as [pre [Hpre Hcases]].
        exists (g :: pre). split.
        { intros h [<-|Hh]; [split; auto | now apply Hpre]. }
        destruct Hcases as [[-> ->]|[[fs [post [-> [Hid ->]]]]|
                            [fs [post [before [f [after [a
                              [-> [Hid [Hfs [Hb [Hf [Ha ->]]]]]]]]]]]]]].
        -- now left.
        -- right. left. exists fs, post. repeat split; auto.
        -- right. right. exists fs, post, before, f, after, a.
           repeat split; auto.
Qed.

(** X8: a name that is the id of a fieldset, with no match before that
    fieldset, gets the summary of the fieldset (id, title and the names
    of its fields), whatever adapters are registered and even when the
    fieldset has a field of that name. *)
Theorem fieldset_id_gives_summary
    registry translate create_form getAdditionalSchemata portal_types
    py_str json_compatible portal_type fti N pre fieldset post :
  portal_types portal_type = Some fti ->
  lookup_fieldsets translate create_form getAdditionalSchemata fti
    = Ok (pre ++ fieldset :: post)%list ->
  unmatched N pre ->
  id fieldset = N ->
  get_info_for_field registry translate create_form getAdditionalSchemata
    portal_types py_str json_compatible portal_type N
  = Ok (InfoFieldset
          {| info_id := N;
             info_title := title fieldset;
             info_fields := field_names (fields fieldset) |}).
Proof.
  intros Hfti Hfs Hpre Hid. subst N.
  unfold get_info_for_field. rewrite Hfti, Hfs. cbn [bind].
  rewrite fieldsets_loop_app by exact Hpre.
  cbn [info_loop]. rewrite String.eqb_refl. reflexivity.
Qed.

Lemma fieldset_id_gives_summary_witness :
  get_info_for_field (fun _ _ => None) Sample.translate Sample.create_form
    Sample.getAdditionalSchemata Sample.portal_types Sample.py_str
    Sample.json_compatible "Document" "categorization"
  = Ok (InfoFieldset
          {| info_id := "categorization";
             info_title := "Categorization";
             info_fields := ["relatedItems"] |}).
Proof.
  apply (fieldset_id_gives_summary (fun _ _ => None) Sample.translate
           Sample.create_form Sample.getAdditionalSchemata
           Sample.portal_types Sample.py_str Sample.json_compatible
           "Document" (Sample.fti "Document" "IDocument") "categorization"
           [ {| id := "default"; title := "Default";
                fields := [Sample.f_title; Sample.f_summary] |} ]
           {| id := "categorization"; title := "Categorization";
              fields := [Sample.f_related] |}
           []); try reflexivity.
  intros g [<-|[]]. split; [discriminate|].
  intros h [<-|[<-|[]]]; discriminate.
Defined.

(** X9: whatever the single-field query returns comes from the first
    match in traversal order: the not-found message only when no fieldset
    id and no field name matches; a fieldset summary only for the first
    matching fieldset, matched by its id; properties only for the first
    field of that name in the first matching fieldset, and then the one
    entry under that name, the decorated schema of that field's adapter. *)
Theorem field_info_comes_from_first_match
    registry translate create_form getAdditionalSchemata portal_types
    py_str json_compatible portal_type fti N fieldsets info :
  portal_types portal_type = Some fti ->
  lookup_fieldsets translate create_form getAdditionalSchemata fti
    = Ok fieldsets ->
  get_info_for_field registry translate create_form getAdditionalSchemata
    portal_types py_str json_compatible portal_type N = Ok info ->
  exists pre,
    unmatched N pre /\
    ((info = not_found /\ fieldsets = pre) \/
     (exists fieldset post,
        fieldsets = (pre ++ fieldset :: post)%list /\
        id fieldset = N /\ info = InfoFieldset (summary_of fieldset)) \/
     (exists fieldset post before f after a,
        fieldsets = (pre ++ fieldset :: post)%list /\
        id fieldset <> N /\
        fields fieldset = (before ++ f :: after)%list /\
        (forall h, In h before -> getName (field h) <> N) /\
        getName (field f) = N /\
        lookup_adapter registry f = Ok a /\
        info = InfoProperties
                 (IJsonCompatible json_compatible
                    [(N, decorated py_str (field f)
                           (provider a (field f) ""))]))).
Proof.
  intros Hfti Hfs H. unfold get_info_for_field in H.
  rewrite Hfti, Hfs in H. cbn [bind] in H.
  now apply info_loop_inv in H.
Qed.

Lemma field_info_comes_from_first_match_witness :
  exists pre,
    unmatched "nonexistent" pre /\
    ((not_found = not_found /\ Sample.fieldsets_of "IDocument" = pre) \/
     (exists fieldset post,
        Sample.fieldsets_of "IDocument" = (pre ++ fieldset :: post)%list /\
        id fieldset = "nonexistent" /\
        not_found = InfoFieldset (summary_of fieldset)) \/
     (exists fieldset post before f after a,
        Sample.fieldsets_of "IDocument" = (pre ++ fieldset :: post)%list /\
        id fieldset <> "nonexistent" /\
        fields fieldset = (before ++ f :: after)%list /\
        (forall h, In h before -> getName (field h) <> "nonexistent") /\
        getName (field f) = "nonexistent" /\
        lookup_adapter Sample.registry f = Ok a /\
        not_found = InfoProperties
                 (IJsonCompatible Sample.json_compatible
                    [("nonexistent", decorated Sample.py_str (field f)
                           (provider a (field f) ""))]))).
Proof.
  apply (field_info_comes_from_first_match Sample.registry Sample.translate
           Sample.create_form Sample.getAdditionalSchemata
           Sample.portal_types Sample.py_str Sample.json_compatible
           "Document" (Sample.fti "Document" "IDocument") "nonexistent"
           (Sample.fieldsets_of "IDocument") not_found);
    reflexivity.
Defined.

Lemma decorated_get py_str f p :
  Dict.get "default" (decorated py_str f p)
    = Some (getattr_or_none (default f)) /\
  Dict.get "defaultFactory" (decorated py_str f p)
    = Some (getattr_or_none (defaultFactory f)) /\
  Dict.get "interface" (decorated py_str f p)
    = Some (PStr (py_str (getattr_or_none (interface f)))) /\
  Dict.get "max_length" (decorated py_str f p)
    = Some (getattr_or_none (max_length f)) /\
  Dict.get "min_length" (decorated py_str f p)
    = Some (getattr_or_none (min_length f)) /\
  Dict.get "missing_value" (decorated py_str f p)
    = Some (getattr_or_none (missing_value f)) /\
  Dict.get "order" (decorated py_str f p)
    = Some (getattr_or_none (order f)) /\
  Dict.get "readonly" (decorated py_str f p)
    = Some (getattr_or_none (readonly f)) /\
  Dict.get "required" (decorated py_str f p) = Some (PBool (required f)) /\
  (forall k, ~ In k descriptor_keys ->
     Dict.get k (decorated py_str f p) = Dict.get k p).
Proof.
  unfold decorated.
  repeat split;
    try (repeat (rewrite DictFacts.get_set_other by discriminate);
         apply DictFacts.get_set_same).
  intros k Hk. unfold descriptor_keys in Hk. simpl in Hk.
  repeat (rewrite DictFacts.get_set_other by (intros E; apply Hk; tauto)).
  reflexivity.
Qed.

(** X10: the properties the single-field query returns have exactly one
    key, the name asked for, and the property under it carries the
    (converted) descriptor values of a field of that name: default,
    defaultFactory, the text of its interface, max_length, min_length,
    missing_value, order, readonly and required, with [None] for an
    attribute the field lacks; they replace entries the adapter gave
    under these keys, and every other entry of the adapter's schema is
    kept. *)
Theorem field_detail_carries_descriptor
    registry translate create_form getAdditionalSchemata portal_types
    py_str json_compatible portal_type fti N fieldsets props :
  portal_types portal_type = Some fti ->
  lookup_fieldsets translate create_form getAdditionalSchemata fti
    = Ok fieldsets ->
  get_info_for_field registry translate create_form getAdditionalSchemata
    portal_types py_str json_compatible portal_type N
    = Ok (InfoProperties props) ->
  exists f a p,
    In f (iter_fields fieldsets) /\ getName (field f) = N /\
    lookup_adapter registry f = Ok a /\
    props = [(N, p)] /\
    Dict.get "default" p
      = Some (json_compatible (getattr_or_none (default (field f)))) /\
    Dict.get "defaultFactory" p
      = Some (json_compatible (getattr_or_none (defaultFactory (field f)))) /\
    Dict.get "interface" p
      = Some (json_compatible
                (PStr (py_str (getattr_or_none (interface (field f)))))) /\
    Dict.get "max_length" p
      = Some (json_compatible (getattr_or_none (max_length (field f)))) /\
    Dict.get "min_length" p
      = Some (json_compatible (getattr_or_none (min_length (field f)))) /\
    Dict.get "missing_value" p
      = Some (json_compatible (getattr_or_none (missing_value (field f)))) /\
    Dict.get "order" p
      = Some (json_compatible (getattr_or_none (order (field f)))) /\
    Dict.get "readonly" p
      = Some (json_compatible (getattr_or_none (readonly (field f)))) /\
    Dict.get "required" p
      = Some (json_compatible (PBool (required (field f)))) /\
    (forall k, ~ In k descriptor_keys ->
       Dict.get k p
       = option_map json_compatible (Dict.get k (provider a (field f) ""))).
Proof.
  intros Hfti Hfs H. unfold get_info_for_field in H.
  rewrite Hfti, Hfs in H. cbn [bind] in H.
  apply info_loop_inv in H.
  destruct H as [pre [_ [H|[H|H]]]].
  { destruct H as [H _]. discriminate H. }
  { destruct H as [fs [post [_ [_ H]]]]. discriminate H. }
  destruct H as [fs [post [before [f [after [a
                   [Hsplit [_ [Hfields [_ [Hf [Ha H]]]]]]]]]]]].
  injection H as ->.
  exists f, a,
    (map (fun e => (fst e, json_compatible (snd e)))
         (decorated py_str (field f) (provider a (field f) ""))).
  destruct (decorated_get py_str (field f) (provider a (field f) ""))
    as [H1 [H2 [H3 [H4 [H5 [H6 [H7 [H8 [H9 H10]]]]]]]]].
  split.
  { rewrite Hsplit, iter_fields_app, iter_fields_cons, Hfields.
    apply in_or_app. right. apply in_or_app. left.
    apply in_or_app. right. now left. }
  split; [exact Hf|]. split; [exact Ha|]. split; [reflexivity|].
  rewrite !get_map_values, H1, H2, H3, H4, H5, H6, H7, H8, H9.
  repeat (split; [reflexivity|]).
  intros k Hk. now rewrite get_map_values, H10.
Qed.

Lemma field_detail_carries_descriptor_witness :
  exists f a p,
    In f (iter_fields (Sample.fieldsets_of "ISummary")) /\
    getName (field f) = "summary" /\
    lookup_adapter Sample.registry f = Ok a /\
    Dict.get "required" p = Some (PBool (required (field f))) /\
    Dict.get "type" p = option_map Sample.json_compatible
                          (Dict.get "type" (provider a (field f) "")).
Proof.
  destruct (field_detail_carries_descriptor Sample.registry Sample.translate
              Sample.create_form Sample.getAdditionalSchemata
              Sample.portal_types Sample.py_str Sample.json_compatible
              "Summary" (Sample.fti "Summary" "ISummary") "summary"
              (Sample.fieldsets_of "ISummary") _ eq_refl eq_refl eq_refl)
    as [f [a [p [Hin [Hf [Ha [_ [_ [_ [_ [_ [_ [_ [_ [_ [Hreq Hother]]]]]]]]]]]]]]]].
  exists f, a, p. repeat split; auto.
  apply Hother. unfold descriptor_keys. simpl.
  intros H. repeat (destruct H as [H|H]; try discriminate H). exact H.
Defined.

(** X11: an unknown portal type is a [KeyError] for both entry points, not
    a not-found result; for a known type the document is that of its FTI;
    and an exception of the schema lookup other than [AttributeError] is
    not swallowed by either entry point. *)
Theorem type_and_schema_lookup_errors
    registry translate create_form getAdditionalSchemata portal_types
    py_str json_compatible portal_type excluded_fields N :
  (portal_types portal_type = None ->
   get_jsonschema_for_portal_type registry translate create_form
     getAdditionalSchemata portal_types json_compatible portal_type
     excluded_fields = Raise (KeyError portal_type) /\
   get_info_for_field registry translate create_form getAdditionalSchemata
     portal_types py_str json_compatible portal_type N
   = Raise (KeyError portal_type)) /\
  (forall fti,
     portal_types portal_type = Some fti ->
     get_jsonschema_for_portal_type registry translate create_form
       getAdditionalSchemata portal_types json_compatible portal_type
       excluded_fields
     = get_jsonschema_for_fti registry translate create_form
         getAdditionalSchemata json_compatible fti excluded_fields /\
     forall e,
       lookupSchema fti = Raise e -> e <> AttributeError ->
       get_jsonschema_for_portal_type registry translate create_form
         getAdditionalSchemata portal_types json_compatible portal_type
         excluded_fields = Raise e /\
       get_info_for_field registry translate create_form
         getAdditionalSchemata portal_types py_str json_compatible
         portal_type N = Raise e).
Proof.
  unfold get_jsonschema_for_portal_type, get_info_for_field.
  split.
  - intros ->. split; reflexivity.
  - intros fti ->. split; [reflexivity|].
    intros e He Hne. unfold get_jsonschema_for_fti, lookup_fieldsets.
    rewrite He. destruct e; try contradiction; split; reflexivity.
Qed.

Lemma type_and_schema_lookup_errors_witness :
  get_jsonschema_for_portal_type Sample.registry Sample.translate
    Sample.create_form Sample.getAdditionalSchemata Sample.portal_types
    Sample.json_compatible "News Item" None = Raise (KeyError "News Item") /\
  get_info_for_field Sample.registry Sample.translate Sample.create_form
    Sample.getAdditionalSchemata Sample.portal_types Sample.py_str
    Sample.json_compatible "News Item" "title" = Raise (KeyError "News Item").
Proof.
  apply (proj1 (type_and_schema_lookup_errors Sample.registry
                  Sample.translate Sample.create_form
                  Sample.getAdditionalSchemata Sample.portal_types
                  Sample.py_str Sample.json_compatible
                  "News Item" None "title")).
  reflexivity.
Defined.

(** ** More on widget parameters *)



(** X13: the resolver gives an entry only to a field that some schema of
    the sequence lists and provides with a parameterized widget that has
    parameters, and no entry is empty: fields with another kind of widget,
    with no widget, with an empty parameter dict, or tagged but not
    listed by the schema, do not appear. *)
Theorem widget_params_only_for_parameterized_widgets
    schemas log params calls n inner :
  get_widget_params schemas log = Ok (params, calls) ->
  Dict.get n params = Some inner ->
  inner <> [] /\
  exists s kv items,
    In (Some s) schemas /\ In n (names s) /\
    Dict.get n (mergedTaggedValueDict s)
      = Some (ParameterizedWidget (kv :: items)).
Proof.
  intros H Hget.
  exact (get_widget_params_declared schemas log params calls H n inner Hget).
Qed.

Lemma widget_params_only_for_parameterized_widgets_witness :
  get_widget_params [None; Some Sample.plain_schema] []
  = Ok ([("start", [("first_day", PInt 1);
                    ("default_timezone", PStr "UTC")])],
        ["default_timezone"]) /\
  exists s kv items,
    In (Some s) [None; Some Sample.plain_schema] /\ In "start" (names s) /\
    Dict.get "start" (mergedTaggedValueDict s)
      = Some (ParameterizedWidget (kv :: items)).
Proof.
  split; [reflexivity|].
  apply (proj2 (widget_params_only_for_parameterized_widgets
                  [None; Some Sample.plain_schema] [] _ ["default_timezone"]
                  "start" [("first_day", PInt 1);
                           ("default_timezone", PStr "UTC")]
                  eq_refl eq_refl)).
Defined.

(** ** URLs of vocabularies and sources *)

Lemma vocab_like_url_inv getSite endpoint locator context u :
  get_vocab_like_url getSite endpoint locator context = Ok u ->
  exists base,
    match absolute_url context with
    | Raise AttributeError => absolute_url getSite
    | r => r
    end = Ok base /\
    u = (base ++ "/" ++ endpoint ++ "/" ++ locator)%string.
Proof.
  unfold get_vocab_like_url.
  destruct (match absolute_url context with
            | Raise AttributeError => absolute_url getSite
            | r => r
            end) as [base|]; cbn [bind]; [|discriminate].
  intros [= <-]. exists base. split; reflexivity.
Qed.

(** X14: for one context the URLs of vocabularies, sources and query
    sources never coincide, and the URL of a vocabulary determines its
    name. *)
Theorem endpoint_urls_are_distinct
    getSite context vocab_name vocab_name' f g u :
  get_vocabulary_url getSite vocab_name context = Ok u ->
  (get_vocabulary_url getSite vocab_name' context = Ok u ->
   vocab_name' = vocab_name) /\
  get_source_url getSite f context <> Ok u /\
  get_querysource_url getSite f context <> Ok u /\
  (forall u', get_source_url getSite f context = Ok u' ->
              get_querysource_url getSite g context <> Ok u').
Proof.
  unfold get_vocabulary_url, get_source_url, get_querysource_url.
  intros H. apply vocab_like_url_inv in H. destruct H as [base [Hb ->]].
  split; [|split; [|split]].
  - intros H. apply vocab_like_url_inv in H. destruct H as [b [Hb' E]].
    rewrite Hb in Hb'. injection Hb' as <-.
    apply append_inj_l in E. apply (append_inj_l "/@vocabularies/") in E.
    now symmetry.
  - intros H. apply vocab_like_url_inv in H. destruct H as [b [Hb' E]].
    rewrite Hb in Hb'. injection Hb' as <-.
    apply append_inj_l in E. discriminate E.
  - intros H. apply vocab_like_url_inv in H. destruct H as [b [Hb' E]].
    rewrite Hb in Hb'. injection Hb' as <-.
    apply append_inj_l in E. discriminate E.
  - intros u' H H'. apply vocab_like_url_inv in H, H'.
    destruct H as [b [Hb1 ->]]. destruct H' as [b' [Hb2 E]].
    rewrite Hb in Hb1, Hb2. injection Hb1 as <-. injection Hb2 as <-.
    apply append_inj_l in E. discriminate E.
Qed.

Lemma endpoint_urls_are_distinct_witness :
  get_vocabulary_url Sample.portal "plone.app.vocabularies.Keywords"
    Sample.folder
  = Ok "http://localhost/plone/folder/@vocabularies/plone.app.vocabularies.Keywords"
  /\ get_source_url Sample.portal (field Sample.f_related) Sample.folder
     <> Ok "http://localhost/plone/folder/@vocabularies/plone.app.vocabularies.Keywords".
Proof.
  split; [reflexivity|].
  apply (proj1 (proj2 (endpoint_urls_are_distinct Sample.portal Sample.folder
                         "plone.app.vocabularies.Keywords" ""
                         (field Sample.f_related) (field Sample.f_related)
                         _ eq_refl))).
Defined.

(** X15: a context without [absolute_url] gets the URL the portal itself
    gets; any other exception of the context, and any exception of the
    portal in the fallback, is raised to the caller. *)
Theorem url_falls_back_to_portal getSite endpoint locator context e :
  absolute_url context = Raise e ->
  (e = AttributeError ->
   get_vocab_like_url getSite endpoint locator context
   = get_vocab_like_url getSite endpoint locator getSite /\
   forall e', absolute_url getSite = Raise e' ->
     get_vocab_like_url getSite endpoint locator context = Raise e') /\
  (e <> AttributeError ->
   get_vocab_like_url getSite endpoint locator context = Raise e).
Proof.
  intros H. unfold get_vocab_like_url. rewrite H. split.
  - intros ->. split.
    + destruct (absolute_url getSite) as [u|[]]; reflexivity.
    + intros e' ->. reflexivity.
  - intros Hne. destruct e; try contradiction; reflexivity.
Qed.

Lemma url_falls_back_to_portal_witness :
  get_vocab_like_url Sample.portal "@sources" "subjects" Sample.detached
  = Ok "http://localhost/plone/@sources/subjects" /\
  get_vocab_like_url Sample.portal "@sources" "subjects" Sample.detached
  = get_vocab_like_url Sample.portal "@sources" "subjects" Sample.portal.
Proof.
  split; [reflexivity|].
  apply (proj1 (url_falls_back_to_portal Sample.portal "@sources" "subjects"
                  Sample.detached AttributeError eq_refl)).
  reflexivity.
Defined.

(** ** The contact form service *)

(** X16: the service hands a message to the contact-info view exactly
    for a body with a true "from" and a true "message", when the overview
    control panel reports no mail host warning and both views are
    registered.  Then it sends exactly one message, made of the four
    values of the body (empty subject and name by default), sets status
    204 and returns nothing.  In every other case nothing is sent, the
    reply is an error value or an exception, and the status is either
    untouched or 400. *)
Theorem message_sent_iff_complete_and_configured views json_body site :
  (forall data,
     json_body = Ok data ->
     complete data = true ->
     overview_controlpanel views = Some false ->
     contact_info views = true ->
     reply views json_body site
     = (Ok None,
        {| status := Some 204%Z;
           outbox := (outbox site ++ [contact_message data])%list |})) /\
  (forall r site',
     reply views json_body site = (r, site') ->
     (exists data,
        json_body = Ok data /\ complete data = true /\
        overview_controlpanel views = Some false /\
        contact_info views = true /\
        r = Ok None /\ status site' = Some 204%Z /\
        outbox site' = (outbox site ++ [contact_message data])%list) \/
     (outbox site' = outbox site /\ r <> Ok None /\
      (site' = site \/ status site' = Some 400%Z))).
Proof.
  split.
  - intros data -> Hc Ho Hi. unfold reply, complete in *.
    apply andb_prop in Hc. destruct Hc as [Hf Hm].
    rewrite Hf, Hm, Ho, Hi. reflexivity.
  - intros r site'. unfold reply, complete, contact_message.
    destruct json_body as [data|e].
    2:{ intros [= <- <-]. right. repeat split; auto. discriminate. }
    destruct (json_truthy (dict_get_default "from" JNull data)) eqn:Ef;
      [destruct (json_truthy (dict_get_default "message" JNull data)) eqn:Em|];
      cbn [negb orb].
    + destruct (overview_controlpanel views) as [[|]|] eqn:Eo.
      * intros [= <- <-]. right. repeat split; auto. discriminate.
      * destruct (contact_info views) eqn:Ec.
        -- intros [= <- <-]. left. exists data.
           rewrite Ef, Em. repeat split; auto.
        -- intros [= <- <-]. right. repeat split; auto. discriminate.
      * intros [= <- <-]. right. repeat split; auto. discriminate.
    + intros [= <- <-]. right. repeat split; auto. discriminate.
    + intros [= <- <-]. right. repeat split; auto. discriminate.
Qed.

Lemma message_sent_iff_complete_and_configured_witness :
  reply Sample.configured (Ok Sample.full_body) Sample.fresh_site
  = (Ok None,
     {| status := Some 204%Z;
        outbox := [[("message", JString "Hello"); ("subject", JString "");
                    ("sender_from_address", JString "jane@example.org");
                    ("sender_fullname", JString "Jane")]] |}) /\
  outbox (snd (reply Sample.configured (Ok Sample.body_without_sender)
                 Sample.fresh_site))
  = outbox Sample.fresh_site.
Proof.
  split.
  - apply (proj1 (message_sent_iff_complete_and_configured
                    Sample.configured (Ok Sample.full_body)
                    Sample.fresh_site)
                 Sample.full_body eq_refl eq_refl eq_refl eq_refl).
  - destruct (proj2 (message_sent_iff_complete_and_configured
                       Sample.configured (Ok Sample.body_without_sender)
                       Sample.fresh_site)
                    _ _ eq_refl)
      as [[data [Hbody [Hc _]]]|[Hout _]].
    + injection Hbody as <-. discriminate Hc.
    + exact Hout.
Defined.

(** X17: a body whose "from" or "message" is missing or false (an empty
    string, null, zero, an empty list or object) is answered with status
    400 and the BadRequest error "Missing from or message parameters",
    before any view is looked up: the answer is the same whatever views
    are registered and whatever the mail host says, and nothing is sent. *)
Theorem incomplete_body_is_bad_request views data site :
  json_truthy (dict_get_default "from" JNull data) = false
    \/ json_truthy (dict_get_default "message" JNull data) = false ->
  reply views (Ok data) site
  = (Ok (Some (JObject
                 [("error",
                   JObject [("type", JString "BadRequest");
                            ("message",
                             JString "Missing from or message parameters")])])),
     {| status := Some 400%Z; outbox := outbox site |}).
Proof.
  intros H. unfold reply.
  destruct H as [-> | ->]; cbn [negb orb]; [reflexivity|].
  now rewrite orb_true_r.
Qed.

Lemma incomplete_body_is_bad_request_witness :
  reply Sample.nothing_registered (Ok Sample.body_without_sender)
    Sample.fresh_site
  = (Ok (Some (JObject
                 [("error",
                   JObject [("type", JString "BadRequest");
                            ("message",
                             JString "Missing from or message parameters")])])),
     {| status := Some 400%Z; outbox := [] |}).
Proof.
  apply (incomplete_body_is_bad_request Sample.nothing_registered
           Sample.body_without_sender Sample.fresh_site).
  left. reflexivity.
Defined.

(** ** The news portlet renderer *)

Lemma render_item self brain s :
  summary brain = Ok s ->
  rendered self brain s
    (match thumb_scale self with
     | Some scale =>
         if getIcon brain then
           Dict.set "thumb"
             (PStr (getURL brain ++ "/@@images/image/" ++ scale))
             (Dict.set "thumb" (PStr "")
                (Dict.set "date" (PStr (created_strftime brain))
                   (Dict.set "date" (PStr (created_localized brain)) s)))
         else
           Dict.set "thumb" (PStr "")
             (Dict.set "date" (PStr (created_strftime brain))
                (Dict.set "date" (PStr (created_localized brain)) s))
     | None =>
         Dict.set "thumb" (PStr "")
           (Dict.set "date" (PStr (created_strftime brain))
              (Dict.set "date" (PStr (created_localized brain)) s))
     end).
Proof.
  intros Hs. unfold rendered, thumb_of. split; [exact Hs|].
  destruct (thumb_scale self) as [scale|]; [destruct (getIcon brain)|];
    (split; [|split]);
    try (intros k Hd Ht);
    repeat first
      [ rewrite DictFacts.get_set_same
      | rewrite DictFacts.get_set_other by (auto; discriminate) ];
    reflexivity.
Qed.

Lemma render_loop_items self brains : forall acc items,
  render_loop self brains acc = Ok items ->
  exists new,
    items = (acc ++ new)%list /\
    Forall2 (fun brain item => exists s, rendered self brain s item)
            brains new.
Proof.
  induction brains as [|brain rest IH]; intros acc items H;
    cbn [render_loop] in H.
  - injection H as <-. exists []. split; [now rewrite app_nil_r|constructor].
  - destruct (summary brain) as [s|] eqn:Es; cbn [bind] in H; [|discriminate].
    destruct (plone_view self); cbn [bind] in H; [|discriminate].
    apply IH in H. destruct H as [new [-> Hall]].
    eexists (_ :: new). split.
    + rewrite <- app_assoc. reflexivity.
    + constructor; auto. exists s. now apply render_item.
Qed.

(** X18: [render] returns one item per published news item, in order,
    with the link to all news.  Each item is the summary of its brain
    with two entries replaced or added: "date" is the creation date in
    the '%Y-%m-%d %X' format (never the localized date, and never the
    date of the summary), and "thumb" is the image address of the brain
    at the thumb scale when there is a scale and the brain has an icon,
    the empty string otherwise; all other entries are kept. *)
Theorem rendered_news_items self items link :
  render self = Ok (items, link) ->
  link = all_news_link self /\
  Forall2 (fun brain item =>
             exists s,
               summary brain = Ok s /\
               Dict.get "date" item = Some (PStr (created_strftime brain)) /\
               Dict.get "thumb" item = Some (PStr (thumb_of self brain)) /\
               forall k, k <> "date" -> k <> "thumb" ->
                         Dict.get k item = Dict.get k s)
          (published_news_items self) items.
Proof.
  unfold render. intros H.
  destruct (render_loop self (published_news_items self) []) as [its|] eqn:E;
    cbn [bind] in H; [|discriminate].
  injection H as <- <-. split; auto.
  apply render_loop_items in E. destruct E as [new [-> Hall]]. exact Hall.
Qed.

Lemma rendered_news_items_witness :
  render Sample.news_renderer
  = Ok ([[("@id", PStr "http://localhost/plone/news/one");
          ("date", PStr "2020-10-05 09:30:00"); ("title", PStr "One");
          ("thumb",
           PStr "http://localhost/plone/news/one/@@images/image/thumb")];
         [("@id", PStr "http://localhost/plone/news/two");
          ("title", PStr "Two");
          ("date", PStr "2020-10-06 10:00:00"); ("thumb", PStr "")]],
        "http://localhost/plone/news") /\
  "http://localhost/plone/news" = all_news_link Sample.news_renderer.
Proof.
  split; [reflexivity|].
  refine (proj1 (rendered_news_items Sample.news_renderer _ _ _)).
  reflexivity.
Defined.

(** ** When the document of a type is built *)

Lemma loop_ok_adapters registry pfx excl fs : forall acc props,
  properties_loop registry pfx excl None fs acc = Ok props ->
  forall f, In f (emitted excl fs) ->
    exists a, lookup_adapter registry f = Ok a.
Proof.
  induction fs as [|f0 rest IH]; intros acc props H f Hin; [destruct Hin|].
  unfold emitted in Hin. cbn [filter] in Hin. fold (emitted excl rest) in Hin.
  destruct (in_list (getName (field f0)) excl) eqn:E2; cbn [negb] in Hin.
  - rewrite loop_skip in H by auto. eapply IH; eauto.
  - rewrite loop_store in H by auto.
    destruct (lookup_adapter registry f0) as [a|] eqn:Ea; cbn [bind] in H;
      [|discriminate].
    destruct Hin as [<-|Hin]; [eauto|]. eapply IH; eauto.
Qed.

Lemma modes_loop_succeeds fs : forall props : Properties,
  (forall f m, In f fs -> mode f = Some m -> str_truthy m = true ->
     In (getName (field f)) (Dict.keys props)) ->
  exists props', modes_loop fs props = Ok props'.
Proof.
  induction fs as [|f rest IH]; intros props H; cbn [modes_loop].
  - now exists props.
  - assert (Hrest : forall props1 : Properties,
              Dict.keys props1 = Dict.keys props ->
              exists props', modes_loop rest props1 = Ok props').
    { intros props1 Hk. apply IH. intros g m Hg Hm Ht.
      rewrite Hk. apply (H g m); auto. now right. }
    destruct (mode f) as [m|] eqn:Em; [destruct (str_truthy m) eqn:Et|];
      auto.
    specialize (H f m (or_introl eq_refl) Em Et).
    destruct (setitem2 (getName (field f)) "mode" (PStr m) props)
      as [props1|e] eqn:E.
    + cbn [bind]. apply Hrest. eapply setitem2_keys; eauto.
    + exfalso. unfold setitem2, Dict.getitem in E.
      unfold Properties, Property in *.
      destruct (Dict.get (getName (field f)) props) eqn:Eg;
        cbn [bind] in E; [discriminate|].
      apply DictFacts.get_None_keys in Eg. contradiction.
Qed.

(** X19: for a type whose fieldsets are found, [get_jsonschema_for_fti]
    returns a document exactly when every field that is not excluded has
    an adapter (named or unnamed) and no field that has a mode is
    excluded. *)
Theorem document_is_built_iff
    registry translate create_form getAdditionalSchemata json_compatible
    fti excluded_fields fieldsets :
  lookup_fieldsets translate create_form getAdditionalSchemata fti
    = Ok fieldsets ->
  ((exists doc,
      get_jsonschema_for_fti registry translate create_form
        getAdditionalSchemata json_compatible fti excluded_fields = Ok doc)
   <->
   (forall f, In f (iter_fields fieldsets) ->
      ~ In (getName (field f)) (excluded_list excluded_fields) ->
      exists a, lookup_adapter registry f = Ok a) /\
   (forall f m, In f (iter_fields fieldsets) ->
      mode f = Some m -> str_truthy m = true ->
      ~ In (getName (field f)) (excluded_list excluded_fields))).
Proof.
  intros Hfs. split.
  - intros [doc Hdoc].
    destruct (document_parts _ _ _ _ _ _ _ _ _ Hfs Hdoc)
      as [props [props' [Hp [Hm _]]]].
    split.
    + intros f Hin Hex. apply (loop_ok_adapters _ _ _ _ _ _ Hp).
      apply filter_In. split; auto.
      now apply negb_true_iff, in_list_false.
    + intros f m Hin Hmode Ht Hex.
      apply (modes_loop_needs_property _ _ _ Hm f m Hin Hmode Ht).
      apply (loop_absent registry "" (excluded_list excluded_fields) None
               (getName (field f)) (iter_fields fieldsets) [] props Hex);
        auto.
      discriminate.
  - intros [Hads Hmodes].
    destruct (loop_succeeds registry "" (excluded_list excluded_fields)
                (iter_fields fieldsets) []) as [props Hp].
    { intros f Hf. apply filter_In in Hf. destruct Hf as [Hin Hex].
      apply Hads; auto. now apply in_list_false, negb_true_iff. }
    destruct (modes_loop_succeeds (iter_fields fieldsets) props)
      as [props' Hm].
    { intros f m Hin Hmode Ht.
      pose proof (loop_keys _ _ _ _ _ _ Hp) as Hk.
      cbn [Dict.keys map app] in Hk. rewrite Hk.
      apply new_keys_In. split; [|intros []].
      change (getName (field f))
        with ((fun g => output_key "" (getName (field g))) f).
      apply (in_map (fun g => output_key "" (getName (field g)))).
      apply filter_In. split; auto.
      apply negb_true_iff, in_list_false. eapply Hmodes; eauto. }
    eexists. unfold get_jsonschema_for_fti. rewrite Hfs. cbn [bind].
    unfold get_jsonschema_properties.
    fold (excluded_list excluded_fields).
    replace (match Some (excluded_list excluded_fields) with
             | Some l => l
             | None => []
             end) with (excluded_list excluded_fields) by reflexivity.
    rewrite Hp. cbn [bind]. rewrite Hm. cbn [bind]. reflexivity.
Qed.

Lemma document_is_built_iff_witness :
  (exists doc,
     get_jsonschema_for_fti Sample.registry Sample.translate
       Sample.create_form Sample.getAdditionalSchemata Sample.json_compatible
       (Sample.fti "File" "IFile") (Some ["file"]) = Ok doc) /\
  ~ (exists doc,
       get_jsonschema_for_fti Sample.registry Sample.translate
         Sample.create_form Sample.getAdditionalSchemata
         Sample.json_compatible (Sample.fti "File" "IFile") None = Ok doc).
Proof.
  split.
  - apply (proj2 (document_is_built_iff Sample.registry Sample.translate
                    Sample.create_form Sample.getAdditionalSchemata
                    Sample.json_compatible (Sample.fti "File" "IFile")
                    (Some ["file"]) (Sample.fieldsets_of "IFile") eq_refl)).
    split.
    + intros f [<-|[<-|[]]] Hex.
      * eexists. reflexivity.
      * exfalso. apply Hex. now left.
    + intros f m [<-|[<-|[]]]; discriminate.
  - intros H.
    apply (proj1 (document_is_built_iff Sample.registry Sample.translate
                    Sample.create_form Sample.getAdditionalSchemata
                    Sample.json_compatible (Sample.fti "File" "IFile")
                    None (Sample.fieldsets_of "IFile") eq_refl)) in H.
    destruct H as [Hads _].
    destruct (Hads Sample.f_blob) as [a Ha].
    + right. now left.
    + intros [].
    + discriminate Ha.
Defined.
